(** * Song list viewer: catalog pipeline and offline cache manager

    A shallow embedding of the two JavaScript sources of the repository:
    the page script (search / filter / sort / pagination / favorites /
    persistence) and the service worker (install / activate / fetch).

    Modelling conventions.
    - A JavaScript string is a [string]: a sequence of code units in the
      range 0..255 (the Latin-1 block of UTF-16 code units).  On that range
      [toLowerCase], the regular-expression class [\s] and the classes
      [[a-z0-9]] and [[A-Z]] are written out exactly.
    - The global variables of the page script are the fields of [AppState];
      every function of the script is a function on [AppState].
    - The [Set] of favorites is a list in insertion order, since
      [[...favorites]] enumerates in insertion order.
    - [localStorage] is a [gmap string string].
    - [CacheStorage] is an association list in creation order from bucket
      names to buckets, a bucket being an association list from request
      URLs to responses.
    - What the browser supplies and the sources do not fix
      ([localeCompare], [JSON.parse]) is a parameter, the class [Platform];
      [Reference.platform] is one instance, used where a theorem is shown
      to apply.
    - A promise that is neither awaited nor returned is work left pending
      when the function returns: the fetch listener returns its response
      together with the list of pending cache writes.

    Part I gives the model, Part II the facts; the theorems named C1 to
    C10 are the properties of the specification. *)

From Stdlib Require Import ZArith NArith List Ascii String Bool Lia.
From Stdlib Require Import Sorting.Sorted Sorting.Permutation.
From stdpp Require Import base option gmap strings pretty.
Import ListNotations.

(** * Part I: the model *)

(** ** JavaScript strings *)

Module JsString.

Definition isWhiteSpace (c : ascii) : bool :=
  let n := N_of_ascii c in
  (((9 <=? n) && (n <=? 13)) || (n =? 32) || (n =? 160))%N.

Definition isUpperAZ (c : ascii) : bool :=
  let n := N_of_ascii c in ((65 <=? n) && (n <=? 90))%N.

Definition isLowerAZ (c : ascii) : bool :=
  let n := N_of_ascii c in ((97 <=? n) && (n <=? 122))%N.

Definition isDigit09 (c : ascii) : bool :=
  let n := N_of_ascii c in ((48 <=? n) && (n <=? 57))%N.

(** Upper-case letters of the Latin-1 supplement: U+00C0..U+00DE
    without the multiplication sign U+00D7. *)
Definition isUpperLatin1 (c : ascii) : bool :=
  let n := N_of_ascii c in
  ((192 <=? n) && (n <=? 222) && negb (n =? 215))%N.

Definition toLowerChar (c : ascii) : ascii :=
  if isUpperAZ c || isUpperLatin1 c
  then ascii_of_N (N_of_ascii c + 32)
  else c.

(** [s.toLowerCase()] *)
Fixpoint toLowerCase (s : string) : string :=
  match s with
  | EmptyString => EmptyString
  | String c r => String (toLowerChar c) (toLowerCase r)
  end.

(** [s.replace(/\s+/g, empty)]: every maximal run of white space is
    replaced by the empty string, so every white-space code unit
    disappears. *)
Fixpoint removeWhitespace (s : string) : string :=
  match s with
  | EmptyString => EmptyString
  | String c r =>
      if isWhiteSpace c then removeWhitespace r
      else String c (removeWhitespace r)
  end.

Fixpoint trimStart (s : string) : string :=
  match s with
  | EmptyString => EmptyString
  | String c r => if isWhiteSpace c then trimStart r else s
  end.

Fixpoint trimEnd (s : string) : string :=
  match s with
  | EmptyString => EmptyString
  | String c r =>
      match trimEnd r with
      | EmptyString => if isWhiteSpace c then EmptyString
                       else String c EmptyString
      | r' => String c r'
      end
  end.

(** [s.trim()] *)
Definition trim (s : string) : string := trimEnd (trimStart s).

(** [s.startsWith(p)] *)
Definition startsWith (s p : string) : bool := String.prefix p s.

(** [s.includes(sub)] *)
Fixpoint includes (s sub : string) : bool :=
  if startsWith s sub then true
  else match s with
       | EmptyString => false
       | String _ r => includes r sub
       end.

(** JavaScript truthiness of a string: only the empty string is falsy. *)
Definition truthy (s : string) : bool :=
  match s with EmptyString => false | _ => true end.

(** [sub] occurs in [s]: the declarative reading of "contains as a
    substring". *)
Definition Substring (sub s : string) : Prop :=
  exists pre post : string, s = (pre ++ sub ++ post)%string.

End JsString.

(** ** The display transform *)

Module Display.
Import JsString.

(** The pattern [([a-z0-9])([A-Z])] at two adjacent code units. *)
Definition matchesPair (c1 c2 : ascii) : bool :=
  (isLowerAZ c1 || isDigit09 c1) && isUpperAZ c2.

(** [text.replace(/([a-z0-9])([A-Z])/g, "$1 $2")]: the scan goes left to
    right; where the two-unit pattern matches, both units are consumed and
    written back with a space between them, and the scan resumes after the
    match; elsewhere one unit is copied and the scan moves one unit on. *)
Fixpoint replacePairs (text : string) : string :=
  match text with
  | EmptyString => EmptyString
  | String c1 rest =>
      match rest with
      | EmptyString => String c1 EmptyString
      | String c2 rest' =>
          if matchesPair c1 c2
          then String c1 (String " " (String c2 (replacePairs rest')))
          else String c1 (replacePairs rest)
      end
  end.

Definition addSpacesToText (text : string) : string :=
  if negb (truthy text) then text else replacePairs text.




End Display.

(** ** JSON serialization *)

Module Json.

Definition dquote : ascii := ascii_of_N 34.
Definition backslash : ascii := ascii_of_N 92.

Definition hexDigit (n : N) : ascii :=
  if (n <? 10)%N then ascii_of_N (48 + n) else ascii_of_N (87 + n).

Definition escape (c : ascii) : string := String backslash (String c EmptyString).

(** QuoteJSONString on one code unit below 256. *)
Definition quoteChar (c : ascii) : string :=
  let n := N_of_ascii c in
  if (n =? 8)%N then escape "b"
  else if (n =? 9)%N then escape "t"
  else if (n =? 10)%N then escape "n"
  else if (n =? 12)%N then escape "f"
  else if (n =? 13)%N then escape "r"
  else if (n =? 34)%N then escape dquote
  else if (n =? 92)%N then escape backslash
  else if (n <? 32)%N then
    String backslash
      (String "u" (String "0" (String "0"
         (String (hexDigit (n / 16)) (String (hexDigit (n mod 16)) EmptyString)))))
  else String c EmptyString.

Fixpoint quoteBody (s : string) : string :=
  match s with
  | EmptyString => EmptyString
  | String c r => (quoteChar c ++ quoteBody r)%string
  end.

(** [JSON.stringify] of a string *)
Definition stringify_string (s : string) : string :=
  String dquote (quoteBody s ++ String dquote EmptyString).

Fixpoint joinComma (items : list string) : string :=
  match items with
  | [] => EmptyString
  | [x] => x
  | x :: r => (x ++ "," ++ joinComma r)%string
  end.

(** [JSON.stringify] of an array whose elements serialize to [items] *)
Definition stringify_array (items : list string) : string :=
  ("[" ++ joinComma items ++ "]")%string.

(** [JSON.stringify] of an array of strings *)
Definition stringify_strings (l : list string) : string :=
  stringify_array (map stringify_string l).

Definition member (key value : string) : string :=
  (stringify_string key ++ ":" ++ stringify_string value)%string.

End Json.

(** ** [Array.prototype.sort] *)

Module ArraySort.

(** The language requires [sort] to be stable and leaves the algorithm to
    the engine.  The model inserts each element, from the last to the
    first, in front of the first element it does not compare greater
    than: a stable insertion sort driven by the sign of the comparator. *)
Fixpoint insertSorted {A : Type} (cmp : A -> A -> Z) (x : A) (l : list A)
  : list A :=
  match l with
  | [] => [x]
  | y :: r => if (cmp x y <=? 0)%Z then x :: l else y :: insertSorted cmp x r
  end.

Definition sort {A : Type} (cmp : A -> A -> Z) (l : list A) : list A :=
  fold_right (insertSorted cmp) [] l.

(** Not greater, and tied, in the eyes of a comparator. *)
Definition le {A : Type} (cmp : A -> A -> Z) (a b : A) : Prop :=
  (cmp a b <= 0)%Z.

Definition tie {A : Type} (cmp : A -> A -> Z) (k y : A) : bool :=
  (cmp k y =? 0)%Z.

(** [l.slice(a, b)] for [0 <= a <= b] *)
Definition slice {A : Type} (a b : nat) (l : list A) : list A :=
  firstn (b - a) (skipn a l).

End ArraySort.

(** ** An insertion-ordered [Set] of strings *)

Module JsSet.

Definition has (x : string) (s : list string) : bool :=
  existsb (String.eqb x) s.

Definition add (x : string) (s : list string) : list string :=
  if has x s then s else s ++ [x].

Definition delete (x : string) (s : list string) : list string :=
  List.filter (fun y => negb (String.eqb x y)) s.

Definition clear (s : list string) : list string := [].

(** [new Set(array)] *)
Definition ofArray (l : list string) : list string :=
  fold_left (fun acc x => add x acc) l [].

Definition size (s : list string) : nat := length s.

End JsSet.

(** ** Data model of the page script *)

Record Song := { number : string; title : string; artist : string }.

(** The fetched catalog resource: an object with a [songs] array, or a
    bare array. *)
Inductive CatalogData :=
| DataSongs (l : list Song)
| DataArray (l : list Song).

(** How [fetch("assets/songs.json")] followed by [response.json()] ends:
    the fetch promise rejects, or it resolves with a response whose [ok]
    flag is given and whose body parses to [Some] data or fails to
    parse. *)
Inductive FetchOutcome :=
| FetchRejected
| FetchResolved (ok : bool) (json : option CatalogData).

(** ** What the platform supplies *)

(** [String.prototype.localeCompare] depends on the locale of the browser;
    [JSON.parse] is used on the two persisted values, and answers [None]
    where it throws. *)
Class Platform := {
  localeCompare : string -> string -> Z;
  JSON_parse_songs : string -> option (list Song);
  JSON_parse_strings : string -> option (list string)
}.

(** ** The page script *)

Module App.
Import JsString Display ArraySort.

(** *** Configuration and constants *)

Definition SONGS : string := "songbook_songs".
Definition FAVORITES : string := "songbook_favorites".
Definition THEME : string := "songbook_theme".
Definition ITEMS_PER_PAGE : nat := 50.
Definition DEBOUNCE_DELAY : nat := 300.

Inductive Filter := FilterAll | FilterFavorites.
Inductive SortKey := SortTitle | SortArtist.

(** *** The document *)

(** A rendered song item: the text of its three fields, the
    [data-song-id] attribute of its favorite button and whether that
    button carries the class [active]. *)
Record SongElement := {
  el_title : string;
  el_number : string;
  el_artist : string;
  data_song_id : string;
  el_active : bool
}.

(** The load-more button: its two data attributes, and the array its
    click handler closes over.  The label of the button repeats the two
    attributes and is left out. *)
Record LoadMoreBtn := {
  data_loaded : nat;
  data_total : nat;
  btn_allSongs : list Song
}.

Inductive EmptyKind := NoSongsLoaded | NoSongsMatch.

(** The children of the song list element. *)
Inductive Node :=
| SongItem (e : SongElement)
| LoadMoreContainer (b : LoadMoreBtn)
| EmptyState (k : EmptyKind)
| LoadingIndicator.

(** *** State *)

Record AppState := {
  songs : list Song;
  favorites : list string;
  currentFilter : Filter;
  currentSort : SortKey;
  currentPage : nat;
  isRendering : bool;
  searchInput : string;
  songList : list Node;
  songCount : string;
  favoriteCount : string;
  localStorage : gmap string string
}.

Definition set_songs (v : list Song) (st : AppState) : AppState :=
  {| songs := v; favorites := favorites st;
     currentFilter := currentFilter st; currentSort := currentSort st;
     currentPage := currentPage st; isRendering := isRendering st;
     searchInput := searchInput st; songList := songList st;
     songCount := songCount st; favoriteCount := favoriteCount st;
     localStorage := localStorage st |}.

Definition set_favorites (v : list string) (st : AppState) : AppState :=
  {| songs := songs st; favorites := v;
     currentFilter := currentFilter st; currentSort := currentSort st;
     currentPage := currentPage st; isRendering := isRendering st;
     searchInput := searchInput st; songList := songList st;
     songCount := songCount st; favoriteCount := favoriteCount st;
     localStorage := localStorage st |}.

Definition set_currentFilter (v : Filter) (st : AppState) : AppState :=
  {| songs := songs st; favorites := favorites st;
     currentFilter := v; currentSort := currentSort st;
     currentPage := currentPage st; isRendering := isRendering st;
     searchInput := searchInput st; songList := songList st;
     songCount := songCount st; favoriteCount := favoriteCount st;
     localStorage := localStorage st |}.

Definition set_currentSort (v : SortKey) (st : AppState) : AppState :=
  {| songs := songs st; favorites := favorites st;
     currentFilter := currentFilter st; currentSort := v;
     currentPage := currentPage st; isRendering := isRendering st;
     searchInput := searchInput st; songList := songList st;
     songCount := songCount st; favoriteCount := favoriteCount st;
     localStorage := localStorage st |}.

Definition set_currentPage (v : nat) (st : AppState) : AppState :=
  {| songs := songs st; favorites := favorites st;
     currentFilter := currentFilter st; currentSort := currentSort st;
     currentPage := v; isRendering := isRendering st;
     searchInput := searchInput st; songList := songList st;
     songCount := songCount st; favoriteCount := favoriteCount st;
     localStorage := localStorage st |}.

Definition set_isRendering (v : bool) (st : AppState) : AppState :=
  {| songs := songs st; favorites := favorites st;
     currentFilter := currentFilter st; currentSort := currentSort st;
     currentPage := currentPage st; isRendering := v;
     searchInput := searchInput st; songList := songList st;
     songCount := songCount st; favoriteCount := favoriteCount st;
     localStorage := localStorage st |}.

Definition set_searchInput (v : string) (st : AppState) : AppState :=
  {| songs := songs st; favorites := favorites st;
     currentFilter := currentFilter st; currentSort := currentSort st;
     currentPage := currentPage st; isRendering := isRendering st;
     searchInput := v; songList := songList st;
     songCount := songCount st; favoriteCount := favoriteCount st;
     localStorage := localStorage st |}.

Definition set_songList (v : list Node) (st : AppState) : AppState :=
  {| songs := songs st; favorites := favorites st;
     currentFilter := currentFilter st; currentSort := currentSort st;
     currentPage := currentPage st; isRendering := isRendering st;
     searchInput := searchInput st; songList := v;
     songCount := songCount st; favoriteCount := favoriteCount st;
     localStorage := localStorage st |}.

Definition set_stats (sc fc : string) (st : AppState) : AppState :=
  {| songs := songs st; favorites := favorites st;
     currentFilter := currentFilter st; currentSort := currentSort st;
     currentPage := currentPage st; isRendering := isRendering st;
     searchInput := searchInput st; songList := songList st;
     songCount := sc; favoriteCount := fc;
     localStorage := localStorage st |}.

Definition set_localStorage (v : gmap string string) (st : AppState)
  : AppState :=
  {| songs := songs st; favorites := favorites st;
     currentFilter := currentFilter st; currentSort := currentSort st;
     currentPage := currentPage st; isRendering := isRendering st;
     searchInput := searchInput st; songList := songList st;
     songCount := songCount st; favoriteCount := favoriteCount st;
     localStorage := v |}.

(** The state when the script has been loaded: the initial values of the
    globals, an empty song list, and whatever the storage and the search
    box hold. *)
Definition initialState (input : string) (ls : gmap string string)
  : AppState :=
  {| songs := []; favorites := [];
     currentFilter := FilterAll; currentSort := SortTitle;
     currentPage := 0; isRendering := false;
     searchInput := input; songList := [];
     songCount := EmptyString; favoriteCount := EmptyString;
     localStorage := ls |}.

(** *** Serialization of the two persisted values *)

(** [JSON.stringify] of a song record, its keys in the order of the data
    model. *)
Definition stringify_song (s : Song) : string :=
  ("{" ++ Json.member "number" (number s) ++ ","
       ++ Json.member "title" (title s) ++ ","
       ++ Json.member "artist" (artist s) ++ "}")%string.

Definition stringify_songs (l : list Song) : string :=
  Json.stringify_array (map stringify_song l).

(** *** Local storage management *)

Definition saveToStorage (st : AppState) : AppState :=
  let ls1 := <[SONGS := stringify_songs (songs st)]> (localStorage st) in
  let ls2 := <[FAVORITES := Json.stringify_strings (favorites st)]> ls1 in
  set_localStorage ls2 st.

(** [data.songs || data || []] *)
Definition songsOf (data : CatalogData) : list Song :=
  match data with
  | DataSongs l => l
  | DataArray l => l
  end.

Section WithPlatform.
Context {platform : Platform}.

(** The [try] block of [loadFromStorage] with its [catch] handler;
    [None] is an exception that leaves the function. *)
Definition loadSongs (outcome : FetchOutcome) (st : AppState)
  : option AppState :=
  let fallback :=
    match localStorage st !! SONGS with
    | Some savedSongs =>
        if truthy savedSongs
        then match JSON_parse_songs savedSongs with
             | Some l => Some (set_songs l st)
             | None => None
             end
        else Some st
    | None => Some st
    end in
  match outcome with
  | FetchResolved true (Some data) =>
      Some (saveToStorage (set_songs (songsOf data) st))
  | FetchResolved true None => fallback
  | FetchResolved false _ => Some st
  | FetchRejected => fallback
  end.

Definition loadFavorites (st : AppState) : option AppState :=
  match localStorage st !! FAVORITES with
  | Some savedFavorites =>
      if truthy savedFavorites
      then match JSON_parse_strings savedFavorites with
           | Some l => Some (set_favorites (JsSet.ofArray l) st)
           | None => None
           end
      else Some st
  | None => Some st
  end.

Definition loadFromStorage (outcome : FetchOutcome) (st : AppState)
  : option AppState :=
  match loadSongs outcome st with
  | Some st1 => loadFavorites st1
  | None => None
  end.

(** *** Utility functions *)

Definition normalizeForSearch (text : string) : string :=
  if negb (truthy text) then EmptyString
  else removeWhitespace (toLowerCase text).

(** *** Rendering *)

Definition createSongElement (favs : list string) (song : Song)
  : SongElement :=
  {| el_title := addSpacesToText (title song);
     el_number := number song;
     el_artist := addSpacesToText (artist song);
     data_song_id := number song;
     el_active := JsSet.has (number song) favs |}.

Definition plural (n : nat) (one many : string) : string :=
  (pretty n ++ " " ++ (if Nat.eqb n 1 then one else many))%string.

Definition updateStats (st : AppState) : AppState :=
  set_stats (plural (length (songs st)) "song" "songs")
            (plural (JsSet.size (favorites st)) "favorite" "favorites")
            st.

(** The predicate handed to [songs.filter]. *)
Definition matchesSearch (searchTerm : string) (song : Song) : bool :=
  let normalizedSearchTerm := normalizeForSearch searchTerm in
  let normalizedTitle := normalizeForSearch (title song) in
  let normalizedArtist := normalizeForSearch (artist song) in
  let normalizedNumber := removeWhitespace (number song) in
  negb (truthy normalizedSearchTerm)
  || includes normalizedTitle normalizedSearchTerm
  || includes normalizedArtist normalizedSearchTerm
  || includes normalizedNumber normalizedSearchTerm.

Definition matchesFavorites (filter : Filter) (favs : list string)
  (song : Song) : bool :=
  match filter with
  | FilterAll => true
  | FilterFavorites => JsSet.has (number song) favs
  end.

(** The comparator handed to [filteredSongs.sort]. *)
Definition compareSongs (key : SortKey) (a b : Song) : Z :=
  match key with
  | SortTitle => localeCompare (title a) (title b)
  | SortArtist => localeCompare (artist a) (artist b)
  end.

(** The filter step of [renderSongs]. *)
Definition filterStep (searchTerm : string) (st : AppState) : list Song :=
  List.filter
    (fun song => matchesSearch searchTerm song
                 && matchesFavorites (currentFilter st) (favorites st) song)
    (songs st).

(** The sort key the comparator reads. *)
Definition sortField (key : SortKey) (s : Song) : string :=
  match key with
  | SortTitle => title s
  | SortArtist => artist s
  end.

(** The filter step followed by the sort step. *)
Definition filteredSongs (searchTerm : string) (st : AppState) : list Song :=
  sort (compareSongs (currentSort st)) (filterStep searchTerm st).

(** The query of a state: the filtered and sorted songs [renderSongs]
    computes from the content of the search box. *)
Definition query (st : AppState) : list Song :=
  filteredSongs (trim (toLowerCase (searchInput st))) st.

Definition renderSongsImmediate (favs : list string) (filtered : list Song)
  (children : list Node) : list Node :=
  children ++ map (fun song => SongItem (createSongElement favs song)) filtered.

Definition renderSongsVirtual (favs : list string) (filtered : list Song)
  (children : list Node) : list Node :=
  let totalSongs := length filtered in
  let itemsPerPage := ITEMS_PER_PAGE in
  let initialSongs := slice 0 itemsPerPage filtered in
  let list1 :=
    children ++ map (fun song => SongItem (createSongElement favs song))
                  initialSongs in
  if itemsPerPage <? totalSongs
  then list1 ++ [LoadMoreContainer
                   {| data_loaded := itemsPerPage;
                      data_total := totalSongs;
                      btn_allSongs := filtered |}]
  else list1.

(** The callback [renderSongs] hands to [requestAnimationFrame];
    [searchTerm] was read before the frame was requested. *)
Definition renderFrame (searchTerm : string) (st : AppState) : AppState :=
  let filtered := filteredSongs searchTerm st in
  if Nat.eqb (length filtered) 0 then
    let kind := if Nat.eqb (length (songs st)) 0
                then NoSongsLoaded else NoSongsMatch in
    set_isRendering false (updateStats (set_songList [EmptyState kind] st))
  else
    let children :=
      if ITEMS_PER_PAGE <? length filtered
      then renderSongsVirtual (favorites st) filtered []
      else renderSongsImmediate (favorites st) filtered [] in
    set_isRendering false (updateStats (set_songList children st)).

(** The part of [renderSongs] that runs before the frame. *)
Definition renderSongs_request (st : AppState) : string * AppState :=
  let searchTerm := trim (toLowerCase (searchInput st)) in
  let st1 := set_isRendering true st in
  let st2 := if 100 <? length (songs st1)
             then set_songList [LoadingIndicator] st1 else st1 in
  (searchTerm, st2).

(** [renderSongs] with its frame run to completion. *)
Definition renderSongs (st : AppState) : AppState :=
  if isRendering st then st
  else let '(searchTerm, st1) := renderSongs_request st in
       renderFrame searchTerm st1.

(** *** Load more *)

Fixpoint findLoadMoreBtn (nodes : list Node) : option LoadMoreBtn :=
  match nodes with
  | [] => None
  | LoadMoreContainer b :: _ => Some b
  | _ :: r => findLoadMoreBtn r
  end.

(** [songList.insertBefore(fragment, loadMoreContainer)] *)
Fixpoint insertBeforeContainer (fragment nodes : list Node) : list Node :=
  match nodes with
  | [] => []
  | LoadMoreContainer b :: r => fragment ++ LoadMoreContainer b :: r
  | n :: r => n :: insertBeforeContainer fragment r
  end.

(** [loadMoreContainer.remove()] *)
Fixpoint removeContainer (nodes : list Node) : list Node :=
  match nodes with
  | [] => []
  | LoadMoreContainer _ :: r => r
  | n :: r => n :: removeContainer r
  end.

(** [button.dataset.loaded = newLoaded] *)
Fixpoint setLoaded (newLoaded : nat) (nodes : list Node) : list Node :=
  match nodes with
  | [] => []
  | LoadMoreContainer b :: r =>
      LoadMoreContainer {| data_loaded := newLoaded;
                           data_total := data_total b;
                           btn_allSongs := btn_allSongs b |} :: r
  | n :: r => n :: setLoaded newLoaded r
  end.

Definition loadMoreSongs (allSongs : list Song) (button : LoadMoreBtn)
  (st : AppState) : AppState :=
  let loaded := data_loaded button in
  let total := data_total button in
  let itemsPerPage := ITEMS_PER_PAGE in
  let nextBatch := slice loaded (loaded + itemsPerPage) allSongs in
  let fragment :=
    map (fun song => SongItem (createSongElement (favorites st) song))
      nextBatch in
  let list1 := insertBeforeContainer fragment (songList st) in
  let newLoaded := loaded + length nextBatch in
  let list2 := setLoaded newLoaded list1 in
  if total <=? newLoaded
  then set_songList (removeContainer list2) st
  else set_songList list2 st.

(** A click on the load-more button, which exists only while its
    container is in the list. *)
Definition clickLoadMore (st : AppState) : AppState :=
  match findLoadMoreBtn (songList st) with
  | Some btn => loadMoreSongs (btn_allSongs btn) btn st
  | None => st
  end.

(** The song items among the children of the list, in document order. *)
Fixpoint songItems (nodes : list Node) : list SongElement :=
  match nodes with
  | [] => []
  | SongItem e :: r => e :: songItems r
  | _ :: r => songItems r
  end.

(** *** Favorites management *)

Definition set_el_active (v : bool) (e : SongElement) : SongElement :=
  {| el_title := el_title e; el_number := el_number e;
     el_artist := el_artist e; data_song_id := data_song_id e;
     el_active := v |}.

(** [btn.classList.toggle("active", force)] on the first element the
    selector [[data-song-id=songId]] finds, if any.  Song numbers are
    taken to need no escaping inside the selector. *)
Fixpoint toggleActive (songId : string) (force : bool) (nodes : list Node)
  : list Node :=
  match nodes with
  | [] => []
  | SongItem e :: r =>
      if String.eqb (data_song_id e) songId
      then SongItem (set_el_active force e) :: r
      else SongItem e :: toggleActive songId force r
  | n :: r => n :: toggleActive songId force r
  end.

Definition toggleFavorite (songId : string) (st : AppState) : AppState :=
  let st1 :=
    if JsSet.has songId (favorites st)
    then set_favorites (JsSet.delete songId (favorites st)) st
    else set_favorites (JsSet.add songId (favorites st)) st in
  let st2 := saveToStorage st1 in
  let st3 := updateStats st2 in
  set_songList
    (toggleActive songId (JsSet.has songId (favorites st3)) (songList st3))
    st3.

(** *** Event listeners *)

(** The debounced search callback. *)
Definition onSearch (st : AppState) : AppState :=
  renderSongs (set_currentPage 0 st).

Definition onShowFavorites (st : AppState) : AppState :=
  let f := match currentFilter st with
           | FilterAll => FilterFavorites
           | FilterFavorites => FilterAll
           end in
  renderSongs (set_currentPage 0 (set_currentFilter f st)).

Definition onSortToggle (st : AppState) : AppState :=
  let k := match currentSort st with
           | SortTitle => SortArtist
           | SortArtist => SortTitle
           end in
  renderSongs (set_currentPage 0 (set_currentSort k st)).

(** The clear-all handler once the dialog has been answered. *)
Definition onClearAll (isConfirmed : bool) (st : AppState) : AppState :=
  if isConfirmed
  then renderSongs
         (saveToStorage
            (set_favorites (JsSet.clear (favorites st)) (set_songs [] st)))
  else st.

(** *** Initialization *)

Definition init (outcome : FetchOutcome) (st : AppState) : option AppState :=
  match loadFromStorage outcome st with
  | Some st1 => Some (renderSongs st1)
  | None => None
  end.

End WithPlatform.

End App.

(** ** The service worker *)

Module ServiceWorker.
Import JsString.

Definition CACHE_NAME : string := "songbook-v1.5".

Definition ASSETS : list string :=
  [ "/song-book/";
    "/song-book/index.html";
    "/song-book/style.css";
    "/song-book/app.js";
    "/song-book/manifest.json";
    "https://cdn.jsdelivr.net/npm/sweetalert2@11";
    "https://cdnjs.cloudflare.com/ajax/libs/pdf.js/4.0.379/pdf.min.mjs" ].

Record Request := { url : string; method : string }.

Inductive ResponseType :=
| TypeBasic | TypeCors | TypeDefault | TypeError | TypeOpaque
| TypeOpaqueRedirect.

Record Response := {
  status : nat;
  statusText : string;
  type : ResponseType;
  headers : list (string * string);
  body : string
}.

(** A bucket maps request URLs to responses; the storage maps bucket names
    to buckets, in the order of creation. *)
Definition Cache : Type := list (string * Response).
Definition CacheStorage : Type := list (string * Cache).

(** The network: [None] where the fetch promise rejects. *)
Definition Network : Type := Request -> option Response.

Definition isErrorType (t : ResponseType) : bool :=
  match t with TypeError => true | _ => false end.

(** [response.ok] *)
Definition ok (r : Response) : bool :=
  (200 <=? status r) && (status r <=? 299).

(** *** The Cache interface *)

Fixpoint Cache_match (u : string) (c : Cache) : option Response :=
  match c with
  | [] => None
  | (k, r) :: rest => if String.eqb k u then Some r else Cache_match u rest
  end.

(** [cache.put]: an entry for the same request is dropped, the new entry
    goes to the end. *)
Definition Cache_put (u : string) (r : Response) (c : Cache) : Cache :=
  List.filter (fun e => negb (String.eqb (fst e) u)) c ++ [(u, r)].

(** *** The CacheStorage interface *)

Definition Caches_keys (cs : CacheStorage) : list string := map fst cs.

Definition Caches_has (name : string) (cs : CacheStorage) : bool :=
  existsb (String.eqb name) (Caches_keys cs).

(** [caches.open]: the bucket is created when it does not exist. *)
Definition Caches_open (name : string) (cs : CacheStorage) : CacheStorage :=
  if Caches_has name cs then cs else cs ++ [(name, [])].

Definition Caches_delete (name : string) (cs : CacheStorage) : CacheStorage :=
  List.filter (fun e => negb (String.eqb (fst e) name)) cs.

(** [caches.match]: the buckets are searched in the order of creation. *)
Fixpoint Caches_match (u : string) (cs : CacheStorage) : option Response :=
  match cs with
  | [] => None
  | (_, c) :: rest =>
      match Cache_match u c with
      | Some r => Some r
      | None => Caches_match u rest
      end
  end.

(** The bucket of a given name, if any. *)
Fixpoint Caches_get (name : string) (cs : CacheStorage) : option Cache :=
  match cs with
  | [] => None
  | (k, c) :: rest => if String.eqb k name then Some c else Caches_get name rest
  end.

(** An operation on the bucket of a given name. *)
Definition Caches_update (name : string) (f : Cache -> Cache)
  (cs : CacheStorage) : CacheStorage :=
  map (fun e => if String.eqb (fst e) name then (fst e, f (snd e)) else e) cs.

(** The set of bucket names. *)
Definition bucketNames (cs : CacheStorage) : gset string :=
  list_to_set (Caches_keys cs).

(** *** Install *)

Definition GET (u : string) : Request := {| url := u; method := "GET" |}.

(** The fetches of [cache.addAll]: all of them have to resolve with an
    [ok] response, or nothing is stored. *)
Fixpoint fetchAll (net : Network) (urls : list string)
  : option (list (string * Response)) :=
  match urls with
  | [] => Some []
  | u :: rest =>
      match net (GET u) with
      | Some r =>
          if ok r
          then match fetchAll net rest with
               | Some l => Some ((u, r) :: l)
               | None => None
               end
          else None
      | None => None
      end
  end.

(** The install listener.  [storageOk] tells whether [caches.open]
    resolves; a rejection anywhere in the chain ends in the [catch]
    handler, which only logs.  The boolean of the result tells whether
    [skipWaiting] was called. *)
Definition install (storageOk : bool) (net : Network) (cs : CacheStorage)
  : CacheStorage * bool :=
  if storageOk then
    let cs1 := Caches_open CACHE_NAME cs in
    match fetchAll net ASSETS with
    | Some entries =>
        (Caches_update CACHE_NAME
           (fun c => fold_left (fun c e => Cache_put (fst e) (snd e) c)
                       entries c)
           cs1, true)
    | None => (cs1, false)
    end
  else (cs, false).

(** *** Activate *)

(** The activate listener: every name [caches.keys] lists that differs
    from [CACHE_NAME] is deleted. *)
Definition activate (cs : CacheStorage) : CacheStorage :=
  fold_left
    (fun acc cache =>
       if negb (String.eqb cache CACHE_NAME)
       then Caches_delete cache acc
       else acc)
    (Caches_keys cs) cs.

(** *** Fetch *)

(** Work the listener starts and does not wait for: the promise of
    [caches.open(..).then(cache => cache.put(..))] is neither returned nor
    awaited, so the response is handed over while the write is still to
    run. *)
Inductive Task :=
| TaskPut (cacheName : string) (u : string) (r : Response).

Inductive FetchEvent :=
| NotIntercepted
| RespondWith (r : Response) (pending : list Task).

Definition offlineResponse : Response :=
  {| status := 503;
     statusText := "Service Unavailable";
     type := TypeDefault;
     headers := [("Content-Type", "text/plain")];
     body := "Offline - Content not available" |}.

Definition onFetch (net : Network) (cs : CacheStorage) (request : Request)
  : FetchEvent :=
  if startsWith (url request) "chrome-extension://" then NotIntercepted
  else if negb (String.eqb (method request) "GET") then NotIntercepted
  else
    match Caches_match (url request) cs with
    | Some response => RespondWith response []
    | None =>
        match net request with
        | Some fetchResponse =>
            if negb (Nat.eqb (status fetchResponse) 200)
               || isErrorType (type fetchResponse)
            then RespondWith fetchResponse []
            else
              let responseToCache := fetchResponse in
              RespondWith fetchResponse
                [TaskPut CACHE_NAME (url request) responseToCache]
        | None => RespondWith offlineResponse []
        end
    end.

Definition runTask (t : Task) (cs : CacheStorage) : CacheStorage :=
  match t with
  | TaskPut name u r =>
      Caches_update name (Cache_put u r) (Caches_open name cs)
  end.


End ServiceWorker.

(** ** A reference platform *)

(** One platform the script can run on: comparison by code units, and a
    parser for the text [saveToStorage] writes (no insignificant white
    space, the keys of a song in the order of the data model). *)
Module Reference.

Definition codeUnitCompare (a b : string) : Z :=
  match String.compare a b with
  | Lt => (-1)%Z
  | Eq => 0%Z
  | Gt => 1%Z
  end.

Definition hexValue (c : ascii) : option N :=
  let n := N_of_ascii c in
  if ((48 <=? n) && (n <=? 57))%N then Some (n - 48)%N
  else if ((97 <=? n) && (n <=? 102))%N then Some (n - 87)%N
  else if ((65 <=? n) && (n <=? 70))%N then Some (n - 55)%N
  else None.

Definition hex4 (h1 h2 h3 h4 : ascii) : option ascii :=
  match hexValue h1, hexValue h2, hexValue h3, hexValue h4 with
  | Some 0%N, Some 0%N, Some a, Some b => Some (ascii_of_N (16 * a + b))
  | _, _, _, _ => None
  end.

Definition decodeEscape (e : ascii) : option ascii :=
  let n := N_of_ascii e in
  if (n =? 98)%N then Some (ascii_of_N 8)
  else if (n =? 116)%N then Some (ascii_of_N 9)
  else if (n =? 110)%N then Some (ascii_of_N 10)
  else if (n =? 102)%N then Some (ascii_of_N 12)
  else if (n =? 114)%N then Some (ascii_of_N 13)
  else if (n =? 34)%N then Some e
  else if (n =? 92)%N then Some e
  else if (n =? 47)%N then Some e
  else None.

Definition consFst (c : ascii) (p : option (string * string))
  : option (string * string) :=
  match p with
  | Some (t, rest) => Some (String c t, rest)
  | None => None
  end.

(** The text after an opening quote: the decoded string and what follows
    the closing quote. *)
Fixpoint unquoteBody (s : string) : option (string * string) :=
  match s with
  | EmptyString => None
  | String c r =>
      if Ascii.eqb c Json.dquote then Some (EmptyString, r)
      else if Ascii.eqb c Json.backslash then
        match r with
        | EmptyString => None
        | String e r1 =>
            if Ascii.eqb e "u" then
              match r1 with
              | String h1 (String h2 (String h3 (String h4 r2))) =>
                  match hex4 h1 h2 h3 h4 with
                  | Some d => consFst d (unquoteBody r2)
                  | None => None
                  end
              | _ => None
              end
            else
              match decodeEscape e with
              | Some d => consFst d (unquoteBody r1)
              | None => None
              end
        end
      else consFst c (unquoteBody r)
  end.

Definition parseString (s : string) : option (string * string) :=
  match s with
  | String c r => if Ascii.eqb c Json.dquote then unquoteBody r else None
  | EmptyString => None
  end.

Definition expect (c : ascii) (s : string) : option string :=
  match s with
  | String d r => if Ascii.eqb c d then Some r else None
  | EmptyString => None
  end.

(** One or more items separated by commas, up to the closing bracket. *)
Fixpoint parseItems {A : Type} (item : string -> option (A * string))
  (fuel : nat) (s : string) : option (list A) :=
  match fuel with
  | 0 => None
  | S fuel' =>
      match item s with
      | Some (x, String c r) =>
          if Ascii.eqb c "," then
            match parseItems item fuel' r with
            | Some xs => Some (x :: xs)
            | None => None
            end
          else if Ascii.eqb c "]" then
            match r with
            | EmptyString => Some [x]
            | _ => None
            end
          else None
      | _ => None
      end
  end.

Definition parseArray {A : Type} (item : string -> option (A * string))
  (s : string) : option (list A) :=
  match expect "[" s with
  | Some r =>
      if String.eqb r "]" then Some []
      else parseItems item (String.length s) r
  | None => None
  end.

Definition parseMember (key : string) (s : string)
  : option (string * string) :=
  match parseString s with
  | Some (k, r) =>
      if String.eqb k key
      then match expect ":" r with
           | Some r1 => parseString r1
           | None => None
           end
      else None
  | None => None
  end.

Definition parseSong (s : string) : option (Song * string) :=
  r0 ← expect "{" s;
  p1 ← parseMember "number" r0;
  r1 ← expect "," (snd p1);
  p2 ← parseMember "title" r1;
  r2 ← expect "," (snd p2);
  p3 ← parseMember "artist" r2;
  r3 ← expect "}" (snd p3);
  Some ({| number := fst p1; title := fst p2; artist := fst p3 |}, r3).

Definition platform : Platform :=
  {| localeCompare := codeUnitCompare;
     JSON_parse_songs := parseArray parseSong;
     JSON_parse_strings := parseArray parseString |}.

End Reference.

(** ** Descriptions of the rendered list *)

Module View.
Import App.

(** The song items of a list of songs. *)
Definition items (favs : list string) (l : list Song) : list Node :=
  map (fun song => SongItem (createSongElement favs song)) l.

(** The children of the song list when the first [k] songs of [all] are
    shown: their items, followed by the load-more container while songs
    remain. *)
Definition page (favs : list string) (all : list Song) (k : nat)
  : list Node :=
  items favs (firstn k all)
  ++ (if k <? length all
      then [LoadMoreContainer {| data_loaded := k;
                                 data_total := length all;
                                 btn_allSongs := all |}]
      else []).

(** The number of songs shown after [n] clicks on the load-more button. *)
Definition shown (n total : nat) : nat :=
  Nat.min (ITEMS_PER_PAGE * (n + 1)) total.


(** The [try] block of [loadFromStorage] throws: the fetch promise
    rejects, or the body of an [ok] response does not parse. *)
Definition fetchFails (outcome : FetchOutcome) : Prop :=
  outcome = FetchRejected \/ outcome = FetchResolved true None.

(** The user actions that do not render the list again. *)
Inductive Event :=
| ClickLoadMore
| ToggleFavorite (songId : string).

Definition step (e : Event) (st : AppState) : AppState :=
  match e with
  | ClickLoadMore => clickLoadMore st
  | ToggleFavorite songId => toggleFavorite songId st
  end.

Definition run (events : list Event) (st : AppState) : AppState :=
  fold_left (fun s e => step e s) events st.

Fixpoint clicks (events : list Event) : nat :=
  match events with
  | [] => 0
  | ClickLoadMore :: r => S (clicks r)
  | ToggleFavorite _ :: r => clicks r
  end.

(** A node without the active mark of its button. *)
Definition eraseActive (n : Node) : Node :=
  match n with
  | SongItem e => SongItem (set_el_active false e)
  | _ => n
  end.

(** What one toggle does to the set of favorites. *)
Definition toggled (x : string) (favs : list string) : list string :=
  if JsSet.has x favs then JsSet.delete x favs else JsSet.add x favs.

End View.

(** ** Sample data *)

Module Sample.
Import App.

Definition amazingGrace : Song :=
  {| number := "12"; title := "Amazing Grace"; artist := "JohnNewton" |}.

Definition closer : Song :=
  {| number := "7"; title := "Closer"; artist := "TheChainsmokers" |}.

Definition conga : Song :=
  {| number := "3"; title := "Conga"; artist := "GloriaEstefan" |}.

Definition catalog : list Song := [amazingGrace; closer; conga].

(** A session with three songs, two of them favorites, all of it saved. *)
Definition session : AppState :=
  saveToStorage
    (set_favorites ["12"; "7"]
       (set_songs catalog (initialState EmptyString ∅))).

(** A network on which every fetch resolves with a complete response. *)
Definition page200 : ServiceWorker.Response :=
  {| ServiceWorker.status := 200;
     ServiceWorker.statusText := "OK";
     ServiceWorker.type := ServiceWorker.TypeBasic;
     ServiceWorker.headers := [("Content-Type", "text/javascript")];
     ServiceWorker.body := "console.log(1)" |}.

Definition online : ServiceWorker.Network := fun _ => Some page200.

(** A network on which every fetch is rejected. *)
Definition offline : ServiceWorker.Network := fun _ => None.


(** A storage left behind by the previous version. *)
Definition staleStorage : ServiceWorker.CacheStorage :=
  [("songbook-v1.4", [("/song-book/app.js", page200)])].

End Sample.

(** ** More of the page script *)

(** *** Escaping *)

Module Html.





End Html.

(** *** Theme management *)

Module Theme.
Import JsString App.

(** The text of the theme icon: a sun while the theme is dark, a moon
    otherwise. *)
Inductive Icon := Sun | Moon.

(** The page: the state of the script, the [data-theme] attribute of the
    document element ([None] while it is not set) and the icon
    ([None] while the script has not written it). *)
Record Page := {
  app : AppState;
  dataTheme : option string;
  themeIcon : option Icon
}.

Definition updateThemeIcon (theme : string) (p : Page) : Page :=
  {| app := app p; dataTheme := dataTheme p;
     themeIcon := Some (if String.eqb theme "dark" then Sun else Moon) |}.

Definition setTheme (theme : string) (p : Page) : Page :=
  {| app := app p; dataTheme := Some theme; themeIcon := themeIcon p |}.

(** [loadTheme]; [prefersDark] is the answer of the media query. *)
Definition loadTheme (prefersDark : bool) (p : Page) : Page :=
  let auto :=
    let theme : string := if prefersDark then "dark" else "light" in
    updateThemeIcon theme (setTheme theme p) in
  match localStorage (app p) !! THEME with
  | Some savedTheme =>
      if truthy savedTheme
      then updateThemeIcon savedTheme (setTheme savedTheme p)
      else auto
  | None => auto
  end.

Definition toggleTheme (p : Page) : Page :=
  let currentTheme := dataTheme p in
  let newTheme : string :=
    match currentTheme with
    | Some t => if String.eqb t "dark" then "light" else "dark"
    | None => "dark"
    end in
  let p1 := setTheme newTheme p in
  let p2 :=
    {| app := set_localStorage (<[THEME := newTheme]> (localStorage (app p1)))
                (app p1);
       dataTheme := dataTheme p1; themeIcon := themeIcon p1 |} in
  updateThemeIcon newTheme p2.

(** A function of the script that does not touch the theme, on a page. *)
Definition onApp (f : AppState -> AppState) (p : Page) : Page :=
  {| app := f (app p); dataTheme := dataTheme p; themeIcon := themeIcon p |}.

(** The page before [init]: nothing set, the storage and the search box
    as the browser has them. *)
Definition initialPage (input : string) (ls : gmap string string) : Page :=
  {| app := initialState input ls; dataTheme := None; themeIcon := None |}.

End Theme.

(** *** A session of user events *)

Module Session.
Import JsString App.

(** What the listeners of [attachEventListeners] and of the song items
    react to.  [UInput value]: the search box has come to hold [value]
    and the debounced callback runs. *)
Inductive UserEvent :=
| UInput (value : string)
| UShowFavorites
| USortToggle
| UClearAll (isConfirmed : bool)
| ULoadMore
| UToggleFavorite (songId : string).

Section WithPlatform.
Context {platform : Platform}.

Definition handle (e : UserEvent) (st : AppState) : AppState :=
  match e with
  | UInput value => onSearch (set_searchInput value st)
  | UShowFavorites => onShowFavorites st
  | USortToggle => onSortToggle st
  | UClearAll isConfirmed => onClearAll isConfirmed st
  | ULoadMore => clickLoadMore st
  | UToggleFavorite songId => toggleFavorite songId st
  end.

Definition runSession (events : list UserEvent) (st : AppState) : AppState :=
  fold_left (fun s e => handle e s) events st.

(** **** The debounce timer of the search box *)

(** The state of the script and the pending timer, if any, with the
    milliseconds left until its callback runs. *)
Record Timed := {
  state : AppState;
  timer : option nat
}.

(** An input event: the box holds [value]; the pending timer is cleared
    and a new one is set. *)
Definition keystroke (value : string) (t : Timed) : Timed :=
  {| state := set_searchInput value (state t);
     timer := Some DEBOUNCE_DELAY |}.

(** Time passes: a timer that is due runs its callback. *)
Definition elapse (ms : nat) (t : Timed) : Timed :=
  match timer t with
  | Some remaining =>
      if remaining <=? ms
      then {| state := onSearch (state t); timer := None |}
      else {| state := state t; timer := Some (remaining - ms) |}
  | None => t
  end.

(** Values typed one after the other, each followed by a pause. *)
Definition typeBurst (burst : list (string * nat)) (t : Timed) : Timed :=
  fold_left (fun t p => elapse (snd p) (keystroke (fst p) t)) burst t.

End WithPlatform.

(** The counts on display are those of the state. *)
Definition StatsShown (st : AppState) : Prop :=
  songCount st = plural (length (songs st)) "song" "songs"
  /\ favoriteCount st
     = plural (JsSet.size (favorites st)) "favorite" "favorites".

(** The storage holds the serialization of the catalog and of the
    favorites in memory. *)
Definition StorageInSync (st : AppState) : Prop :=
  localStorage st !! SONGS = Some (stringify_songs (songs st))
  /\ localStorage st !! FAVORITES
     = Some (Json.stringify_strings (favorites st)).




End Session.

(** ** More of the service worker *)

Module Worker.
Import ServiceWorker.

(** The storage together with the cache writes that were started and
    have not run yet. *)
Record State := {
  caches : CacheStorage;
  pendingTasks : list Task
}.

(** A fetch event with the behaviour of the network at that time, or the
    oldest pending write runs. *)
Inductive WorkerEvent :=
| WFetch (net : Network) (request : Request)
| WRunTask.

Definition step (e : WorkerEvent) (w : State) : State :=
  match e with
  | WFetch net request =>
      match onFetch net (caches w) request with
      | RespondWith _ pending =>
          {| caches := caches w; pendingTasks := pendingTasks w ++ pending |}
      | NotIntercepted => w
      end
  | WRunTask =>
      match pendingTasks w with
      | t :: rest => {| caches := runTask t (caches w); pendingTasks := rest |}
      | [] => w
      end
  end.

Definition run (events : list WorkerEvent) (w : State) : State :=
  fold_left (fun s e => step e s) events w.


Definition taskResponse (t : Task) : Response :=
  match t with TaskPut _ _ r => r end.

(** Every response in every bucket is an [ok] response. *)
Definition CachedOk (cs : CacheStorage) : Prop :=
  forall name c u r, In (name, c) cs -> In (u, r) c -> ok r = true.

End Worker.

(** ** Sample runs *)

Module Scenario.
Import Session ServiceWorker Worker.

(** A visit: a search, a new favorite, the favorites filter, the other
    sort key, one more page. *)
Definition visit : list UserEvent :=
  [UInput "grace"; UToggleFavorite "3"; UShowFavorites; USortToggle;
   ULoadMore].

(** The style sheet is asked for while the network is down and again
    when it is up, and the pending writes run. *)
Definition traffic : list WorkerEvent :=
  [WFetch Sample.offline (GET "/song-book/style.css");
   WFetch Sample.online (GET "/song-book/style.css");
   WRunTask; WRunTask].

End Scenario.
(** * Part II: facts *)

(** ** Facts about JavaScript strings *)

Module JsStringFacts.
Import JsString.

Lemma append_cons (x : ascii) (a b : string) :
  (String x a ++ b)%string = String x (a ++ b).
Proof. reflexivity. Qed.

Lemma append_nil_l (a : string) : (EmptyString ++ a)%string = a.
Proof. reflexivity. Qed.

Lemma append_assoc (a b c : string) :
  ((a ++ b) ++ c)%string = (a ++ (b ++ c))%string.
Proof.
  induction a as [|x a IH]; [reflexivity|].
  now rewrite !append_cons, IH.
Qed.

Lemma append_length (a b : string) :
  String.length (a ++ b) = String.length a + String.length b.
Proof.
  induction a as [|x a IH]; [reflexivity|].
  rewrite append_cons. cbn [String.length]. now rewrite IH.
Qed.

Lemma toLowerChar_idem c : toLowerChar (toLowerChar c) = toLowerChar c.
Proof. destruct c as [[] [] [] [] [] [] [] []]; reflexivity. Qed.

Lemma isWhiteSpace_toLowerChar c :
  isWhiteSpace (toLowerChar c) = isWhiteSpace c.
Proof. destruct c as [[] [] [] [] [] [] [] []]; reflexivity. Qed.

Lemma toLowerCase_idem s : toLowerCase (toLowerCase s) = toLowerCase s.
Proof.
  induction s as [|c r IH]; simpl; [reflexivity|].
  now rewrite toLowerChar_idem, IH.
Qed.

Lemma removeWhitespace_trimStart s :
  removeWhitespace (trimStart s) = removeWhitespace s.
Proof.
  induction s as [|c r IH]; simpl; [reflexivity|].
  destruct (isWhiteSpace c) eqn:E; [exact IH|].
  simpl. now rewrite E.
Qed.

Lemma removeWhitespace_trimEnd s :
  removeWhitespace (trimEnd s) = removeWhitespace s.
Proof.
  induction s as [|c r IH]; simpl; [reflexivity|].
  destruct (trimEnd r) as [|c' r'] eqn:E.
  - simpl in IH. destruct (isWhiteSpace c) eqn:W; simpl.
    + now rewrite <- IH.
    + now rewrite W, <- IH.
  - change (removeWhitespace (String c (String c' r')))
      with (if isWhiteSpace c then removeWhitespace (String c' r')
            else String c (removeWhitespace (String c' r'))).
    now rewrite IH.
Qed.

Lemma removeWhitespace_trim s :
  removeWhitespace (trim s) = removeWhitespace s.
Proof.
  unfold trim.
  now rewrite removeWhitespace_trimEnd, removeWhitespace_trimStart.
Qed.

Lemma removeWhitespace_toLowerCase s :
  removeWhitespace (toLowerCase s) = toLowerCase (removeWhitespace s).
Proof.
  induction s as [|c r IH]; simpl; [reflexivity|].
  rewrite isWhiteSpace_toLowerChar.
  destruct (isWhiteSpace c); simpl; now rewrite IH.
Qed.

Lemma prefix_cons c p d s :
  String.prefix (String c p) (String d s)
  = if ascii_dec c d then String.prefix p s else false.
Proof. reflexivity. Qed.

Lemma prefix_app p s :
  String.prefix p s = true <-> exists post, s = (p ++ post)%string.
Proof.
  revert s. induction p as [|c p IH]; intros s.
  - split; [intros _; now exists s | intros _; now destruct s].
  - destruct s as [|d s].
    + split; [discriminate | intros [post H]; discriminate].
    + rewrite prefix_cons. destruct (ascii_dec c d) as [->|Hne].
      * rewrite IH. split; intros [post H]; exists post.
        -- simpl. now rewrite H.
        -- simpl in H. now injection H.
      * split; [discriminate|].
        intros [post H]. simpl in H. injection H as H1 H2. congruence.
Qed.

Lemma includes_nil sub :
  includes EmptyString sub = String.prefix sub EmptyString.
Proof. cbn [includes]. unfold startsWith. now destruct (String.prefix _ _). Qed.

Lemma includes_cons c r sub :
  includes (String c r) sub
  = String.prefix sub (String c r) || includes r sub.
Proof. cbn [includes]. unfold startsWith. now destruct (String.prefix _ _). Qed.

Lemma includes_Substring s sub :
  includes s sub = true <-> Substring sub s.
Proof.
  unfold Substring. induction s as [|c r IH].
  - rewrite includes_nil, prefix_app. split.
    + intros [post E]. now exists EmptyString, post.
    + intros [pre [post H]]. destruct pre; [|discriminate]. eauto.
  - rewrite includes_cons, orb_true_iff, IH, prefix_app. split.
    + intros [[post E]|[pre [post E]]].
      * now exists EmptyString, post.
      * exists (String c pre), post. simpl. now rewrite E.
    + intros [pre [post H]]. destruct pre as [|d pre]; simpl in H.
      * left. eauto.
      * right. injection H as _ H. eauto.
Qed.

End JsStringFacts.

(** ** Facts about the sort *)

Module ArraySortFacts.
Import ArraySort.

Section Comparator.
Context {A : Type} (cmp : A -> A -> Z).

Local Abbreviation le := (ArraySort.le cmp).
Local Abbreviation tie := (ArraySort.tie cmp).

Lemma insertSorted_perm x l : Permutation (insertSorted cmp x l) (x :: l).
Proof.
  induction l as [|y r IH]; simpl; [reflexivity|].
  destruct (cmp x y <=? 0)%Z; [reflexivity|].
  rewrite IH. apply perm_swap.
Qed.

Lemma sort_perm l : Permutation (sort cmp l) l.
Proof.
  induction l as [|x r IH]; simpl; [reflexivity|].
  unfold sort in *. simpl. rewrite insertSorted_perm. now constructor.
Qed.

Lemma sort_In x l : In x (sort cmp l) <-> In x l.
Proof.
  split; apply Permutation_in; [|symmetry]; apply sort_perm.
Qed.

Lemma sort_length l : length (sort cmp l) = length l.
Proof. apply Permutation_length, sort_perm. Qed.

(** A comparator is consistent when swapping its arguments flips the
    sign of its result and "not greater" is transitive. *)
Hypothesis cmp_antisym : forall a b, Z.sgn (cmp a b) = (- Z.sgn (cmp b a))%Z.
Hypothesis cmp_trans : forall a b c, le a b -> le b c -> le a c.

Lemma le_total a b : le a b \/ le b a.
Proof. unfold ArraySort.le. pose proof (cmp_antisym a b). lia. Qed.

Lemma gt_le a b : ~ le a b -> le b a.
Proof. unfold ArraySort.le. pose proof (cmp_antisym a b). lia. Qed.

Lemma tie_le k y : tie k y = true <-> le k y /\ le y k.
Proof.
  unfold ArraySort.tie, ArraySort.le. rewrite Z.eqb_eq. pose proof (cmp_antisym k y). lia.
Qed.

Lemma insertSorted_sorted x l :
  StronglySorted le l -> StronglySorted le (insertSorted cmp x l).
Proof.
  induction 1 as [|y r Hs IH Hy]; simpl.
  - repeat constructor.
  - destruct (cmp x y <=? 0)%Z eqn:E.
    + apply Z.leb_le in E. constructor; [now constructor|].
      constructor; [exact E|].
      eapply List.Forall_impl; [|exact Hy]. intros z Hz. now apply cmp_trans with y.
    + apply Z.leb_gt in E. constructor; [exact IH|].
      assert (Hall : Forall (le y) (x :: r)).
      { constructor; [|exact Hy]. apply gt_le. unfold ArraySort.le. lia. }
      rewrite List.Forall_forall in *. intros z Hz. apply Hall.
      eapply Permutation_in; [apply insertSorted_perm|exact Hz].
Qed.

Lemma sort_sorted l : StronglySorted le (sort cmp l).
Proof.
  induction l as [|x r IH]; [constructor|].
  unfold sort in *. simpl. now apply insertSorted_sorted.
Qed.

Lemma sort_of_sorted l : StronglySorted le l -> sort cmp l = l.
Proof.
  induction 1 as [|x r Hs IH Hx]; [reflexivity|].
  unfold sort in *. simpl. rewrite IH.
  destruct r as [|y r']; [reflexivity|]. simpl.
  inversion Hx as [|? ? Hxy _]; subst. unfold ArraySort.le in Hxy.
  apply Z.leb_le in Hxy. now rewrite Hxy.
Qed.

Lemma sort_idem l : sort cmp (sort cmp l) = sort cmp l.
Proof. apply sort_of_sorted, sort_sorted. Qed.

Lemma insertSorted_stable k x l :
  List.filter (tie k) (insertSorted cmp x l) = List.filter (tie k) (x :: l).
Proof.
  induction l as [|y r IH]; [reflexivity|].
  cbn [insertSorted]. destruct (cmp x y <=? 0)%Z eqn:E; [reflexivity|].
  apply Z.leb_gt in E.
  cbn [List.filter] in *. rewrite IH.
  destruct (tie k x) eqn:Tx, (tie k y) eqn:Ty; try reflexivity.
  apply tie_le in Tx as [_ Hxk]. apply tie_le in Ty as [Hky _].
  pose proof (cmp_trans _ _ _ Hxk Hky) as H. unfold ArraySort.le in H. lia.
Qed.

Lemma sort_stable k l :
  List.filter (tie k) (sort cmp l) = List.filter (tie k) l.
Proof.
  induction l as [|x r IH]; [reflexivity|].
  unfold sort in *. cbn [fold_right]. rewrite insertSorted_stable.
  cbn [List.filter]. now rewrite IH.
Qed.

End Comparator.

Lemma slice_firstn {A : Type} (n : nat) (l : list A) :
  slice 0 n l = firstn n l.
Proof. unfold slice. now rewrite Nat.sub_0_r. Qed.

Lemma firstn_slice {A : Type} (a b : nat) (l : list A) :
  a <= b -> (firstn a l ++ slice a b l)%list = firstn b l.
Proof.
  intros H. unfold slice.
  rewrite take_take_drop. f_equal. lia.
Qed.

End ArraySortFacts.

(** ** Facts about the set of favorites *)

Module JsSetFacts.
Import JsSet.

Lemma has_In x s : has x s = true <-> In x s.
Proof.
  unfold has. rewrite existsb_exists. split.
  - intros [y [Hy E]]. apply String.eqb_eq in E. now subst.
  - intros H. exists x. split; [exact H|apply String.eqb_refl].
Qed.

Lemma has_false x s : has x s = false <-> ~ In x s.
Proof.
  rewrite <- has_In. destruct (has x s); split; congruence.
Qed.

Lemma delete_In y x s : In y (delete x s) <-> In y s /\ y <> x.
Proof.
  unfold delete. rewrite filter_In, negb_true_iff, String.eqb_neq.
  split; intros [H1 H2]; split; congruence.
Qed.


Lemma delete_absent x s : ~ In x s -> delete x s = s.
Proof.
  intros H. unfold delete. induction s as [|y r IH]; [reflexivity|].
  simpl. destruct (String.eqb x y) eqn:E.
  - apply String.eqb_eq in E. subst. exfalso. apply H. now left.
  - simpl. f_equal. apply IH. intros Hin. apply H. now right.
Qed.

Lemma delete_app x s t : delete x (s ++ t) = delete x s ++ delete x t.
Proof. unfold delete. apply List.filter_app. Qed.

Lemma delete_single x : delete x [x] = [].
Proof. unfold delete. simpl. now rewrite String.eqb_refl. Qed.




End JsSetFacts.

(** ** The query *)

Module QueryFacts.
Import JsString JsStringFacts Display ArraySort ArraySortFacts App.

Section WithPlatform.
Context {platform : Platform}.

Lemma normalizeForSearch_eq text :
  normalizeForSearch text = removeWhitespace (toLowerCase text).
Proof. now destruct text. Qed.

Lemma normalizeForSearch_searchTerm raw :
  normalizeForSearch (trim (toLowerCase raw)) = normalizeForSearch raw.
Proof.
  rewrite !normalizeForSearch_eq.
  rewrite removeWhitespace_toLowerCase, removeWhitespace_trim.
  rewrite <- removeWhitespace_toLowerCase.
  now rewrite toLowerCase_idem.
Qed.

Lemma truthy_false s : truthy s = false <-> s = EmptyString.
Proof. destruct s; simpl; split; congruence. Qed.

Lemma matchesSearch_iff searchTerm song :
  matchesSearch searchTerm song = true <->
  let term := normalizeForSearch searchTerm in
  term = EmptyString
  \/ Substring term (normalizeForSearch (title song))
  \/ Substring term (normalizeForSearch (artist song))
  \/ Substring term (removeWhitespace (number song)).
Proof.
  unfold matchesSearch. cbv zeta.
  rewrite !orb_true_iff, negb_true_iff, truthy_false.
  rewrite !includes_Substring. tauto.
Qed.

Lemma matchesFavorites_iff f favs song :
  matchesFavorites f favs song = true <->
  f = FilterAll \/ In (number song) favs.
Proof.
  destruct f; simpl.
  - split; auto.
  - rewrite JsSetFacts.has_In. split; [auto|]. intros [H|H]; [discriminate|auto].
Qed.

Lemma filteredSongs_In searchTerm st song :
  In song (filteredSongs searchTerm st) <->
  In song (songs st)
  /\ matchesSearch searchTerm song = true
  /\ matchesFavorites (currentFilter st) (favorites st) song = true.
Proof.
  unfold filteredSongs, filterStep. rewrite sort_In, filter_In, andb_true_iff.
  reflexivity.
Qed.

(** C1: a song is in the result of the query exactly when it is in the
    catalog, its search condition holds (the normalized search term is
    empty, or occurs in the normalized title, in the normalized artist or
    in the number stripped of white space) and its favorites condition
    holds (the filter is All, or its number is a favorite).
    Normalization is lower-casing followed by the removal of all white
    space, and it identifies the two spellings of The Chainsmokers. *)
Theorem C1_query_membership :
  (forall (st : AppState) (song : Song),
      let term := normalizeForSearch (searchInput st) in
      In song (query st) <->
      In song (songs st)
      /\ (term = EmptyString
          \/ Substring term (normalizeForSearch (title song))
          \/ Substring term (normalizeForSearch (artist song))
          \/ Substring term (removeWhitespace (number song)))
      /\ (currentFilter st = FilterAll \/ In (number song) (favorites st)))
  /\ (forall text : string,
         normalizeForSearch text = removeWhitespace (toLowerCase text))
  /\ normalizeForSearch "The Chainsmokers"
     = normalizeForSearch "TheChainsmokers".
Proof.
  split; [|split].
  - intros st song term. unfold query.
    rewrite filteredSongs_In, matchesSearch_iff, matchesFavorites_iff.
    cbv zeta. rewrite normalizeForSearch_searchTerm. reflexivity.
  - exact normalizeForSearch_eq.
  - reflexivity.
Qed.

End WithPlatform.

(** The scenarios of the specification, on the reference platform. *)

Example search_amazing :
  query (platform := Reference.platform)
    (set_searchInput "amazing" (set_songs [Sample.amazingGrace]
       (initialState EmptyString ∅)))
  = [Sample.amazingGrace].
Proof. reflexivity. Qed.

Example search_newton :
  query (platform := Reference.platform)
    (set_searchInput "  New Ton " (set_songs [Sample.amazingGrace]
       (initialState EmptyString ∅)))
  = [Sample.amazingGrace].
Proof. reflexivity. Qed.

Example search_99 :
  query (platform := Reference.platform)
    (set_searchInput "99" (set_songs [Sample.amazingGrace]
       (initialState EmptyString ∅)))
  = [].
Proof. reflexivity. Qed.

Example favorites_only_empty :
  query (platform := Reference.platform)
    (set_currentFilter FilterFavorites (set_songs Sample.catalog
       (initialState EmptyString ∅)))
  = [].
Proof. reflexivity. Qed.

Example sorted_by_artist :
  query (platform := Reference.platform)
    (set_currentSort SortArtist Sample.session)
  = [Sample.conga; Sample.amazingGrace; Sample.closer].
Proof. reflexivity. Qed.

End QueryFacts.

(** ** The reference comparator is consistent *)

Module ReferenceFacts.
Import Reference.

Lemma codeUnitCompare_antisym a b :
  Z.sgn (codeUnitCompare a b) = (- Z.sgn (codeUnitCompare b a))%Z.
Proof.
  unfold codeUnitCompare. rewrite (String.compare_antisym a b).
  now destruct (String.compare b a).
Qed.

Lemma codeUnitCompare_le a b :
  (codeUnitCompare a b <= 0)%Z <-> String.le a b.
Proof.
  unfold codeUnitCompare, String.le, String.leb.
  destruct (String.compare a b); simpl; split; intros H;
    solve [lia | exact I | destruct H].
Qed.

Lemma codeUnitCompare_trans a b c :
  (codeUnitCompare a b <= 0)%Z -> (codeUnitCompare b c <= 0)%Z ->
  (codeUnitCompare a c <= 0)%Z.
Proof.
  rewrite !codeUnitCompare_le. intros H1 H2. now transitivity b.
Qed.

End ReferenceFacts.

(** ** The sort step *)

Module SortFacts.
Import JsString ArraySort ArraySortFacts App.

Section WithPlatform.
Context {platform : Platform}.

Lemma compareSongs_eq key a b :
  compareSongs key a b = localeCompare (sortField key a) (sortField key b).
Proof. now destruct key. Qed.

(** C6: for a locale comparison that is consistent (swapping the
    arguments flips the sign, and not-greater is transitive), the sort
    step puts the filtered songs in ascending order of the title or of
    the artist, as the sort key says; it only permutes them; songs that
    tie keep the order they have in the catalog; and sorting a list that
    is already in order, such as the result itself, changes nothing. *)
Theorem C6_sort_ascending_stable_idempotent :
  (forall a b : string,
      Z.sgn (localeCompare a b) = (- Z.sgn (localeCompare b a))%Z) ->
  (forall a b c : string,
      (localeCompare a b <= 0)%Z -> (localeCompare b c <= 0)%Z ->
      (localeCompare a c <= 0)%Z) ->
  forall (st : AppState) (searchTerm : string),
    let key := sortField (currentSort st) in
    let ascending (a b : Song) := (localeCompare (key a) (key b) <= 0)%Z in
    let ties (k s : Song) := (localeCompare (key k) (key s) =? 0)%Z in
    let filtered := filterStep searchTerm st in
    let result := filteredSongs searchTerm st in
    StronglySorted ascending result
    /\ Permutation result filtered
    /\ (forall k : Song,
           List.filter (ties k) result = List.filter (ties k) filtered)
    /\ sort (compareSongs (currentSort st)) result = result
    /\ (forall l : list Song,
           StronglySorted ascending l ->
           sort (compareSongs (currentSort st)) l = l).
Proof.
  intros Hanti Htrans st searchTerm key ascending ties filtered result.
  set (cmp := compareSongs (currentSort st)).
  assert (Ha : forall a b, Z.sgn (cmp a b) = (- Z.sgn (cmp b a))%Z).
  { intros a b. unfold cmp. rewrite !compareSongs_eq. apply Hanti. }
  assert (Ht : forall a b c, le cmp a b -> le cmp b c -> le cmp a c).
  { intros a b c. unfold ArraySort.le, cmp. rewrite !compareSongs_eq. apply Htrans. }
  assert (Hle : forall l, StronglySorted ascending l <-> StronglySorted (le cmp) l).
  { intros l. split; intros H; induction H; constructor; auto;
      (eapply List.Forall_impl; [|eassumption]); intros b Hb;
      unfold ArraySort.le, cmp, ascending, key in *;
      rewrite ?compareSongs_eq in *; exact Hb. }
  assert (Hties : forall k s, ties k s = tie cmp k s).
  { intros k s. unfold ties, ArraySort.tie, cmp, key. now rewrite compareSongs_eq. }
  repeat split.
  - apply Hle. apply sort_sorted; assumption.
  - apply sort_perm.
  - intros k. rewrite !(filter_ext _ _ (Hties k)).
    apply sort_stable; assumption.
  - apply sort_idem; assumption.
  - intros l Hl. apply sort_of_sorted; [assumption..|]. now apply Hle.
Qed.

End WithPlatform.

End SortFacts.

(** ** The reference parser reads what is saved *)

Module RoundTrip.
Import JsStringFacts Json Reference App.

Lemma unquote_quoteChar c t rest :
  unquoteBody t = Some rest ->
  unquoteBody (quoteChar c ++ t) = consFst c (Some rest).
Proof.
  intros H.
  destruct c as [[] [] [] [] [] [] [] []];
    cbv [quoteChar N_of_ascii N_of_digits N.eqb N.ltb N.compare N.add N.mul
         Pos.eqb Pos.compare Pos.compare_cont Pos.add Pos.mul Pos.succ
         escape String.append];
    cbn; rewrite ?H; reflexivity.
Qed.

Lemma unquote_quoteBody s rest :
  unquoteBody (quoteBody s ++ String dquote rest) = Some (s, rest).
Proof.
  induction s as [|c r IH]; [reflexivity|].
  cbn [quoteBody]. rewrite append_assoc.
  now rewrite (unquote_quoteChar c _ _ IH).
Qed.

Lemma parseString_stringify s rest :
  parseString (stringify_string s ++ rest) = Some (s, rest).
Proof.
  unfold stringify_string. rewrite append_cons. unfold parseString.
  rewrite Ascii.eqb_refl, append_assoc, append_cons, append_nil_l.
  apply unquote_quoteBody.
Qed.

Lemma expect_cons c rest : expect c (String c rest) = Some rest.
Proof. unfold expect. now rewrite Ascii.eqb_refl. Qed.

Lemma parseMember_member key value rest :
  parseMember key (member key value ++ rest) = Some (value, rest).
Proof.
  unfold parseMember, member.
  rewrite !append_assoc, parseString_stringify, String.eqb_refl.
  rewrite append_cons, append_nil_l, expect_cons.
  apply parseString_stringify.
Qed.

Lemma parseSong_stringify s rest :
  parseSong (stringify_song s ++ rest) = Some (s, rest).
Proof.
  unfold parseSong, stringify_song.
  rewrite !append_assoc, append_cons, append_nil_l, expect_cons.
  cbn [mbind option_bind]. rewrite parseMember_member.
  cbn [mbind option_bind snd fst].
  rewrite append_cons, append_nil_l, expect_cons.
  cbn [mbind option_bind]. rewrite parseMember_member.
  cbn [mbind option_bind snd fst].
  rewrite append_cons, append_nil_l, expect_cons.
  cbn [mbind option_bind]. rewrite parseMember_member.
  cbn [mbind option_bind snd fst].
  rewrite append_cons, append_nil_l, expect_cons.
  cbn [mbind option_bind]. now destruct s.
Qed.

Section Items.
Context {A : Type} (item : string -> option (A * string)) (ser : A -> string).
Hypothesis item_ser : forall x rest, item (ser x ++ rest) = Some (x, rest).
Hypothesis ser_head :
  forall x, exists c t, ser x = String c t /\ Ascii.eqb c "]" = false.

Lemma parseItems_join l fuel :
  l <> [] ->
  length l <= fuel ->
  parseItems item fuel (joinComma (map ser l) ++ "]") = Some l.
Proof.
  revert fuel. induction l as [|x r IH]; intros fuel Hne Hlen; [congruence|].
  destruct fuel as [|fuel]; [simpl in Hlen; lia|].
  destruct r as [|y r'].
  - cbn [map joinComma parseItems]. rewrite item_ser. reflexivity.
  - change (joinComma (map ser (x :: y :: r')))
      with (ser x ++ "," ++ joinComma (map ser (y :: r')))%string.
    rewrite !append_assoc. cbn [parseItems]. rewrite item_ser.
    rewrite append_cons, append_nil_l.
    change (Ascii.eqb "," ",") with true. cbv iota.
    rewrite IH; [reflexivity|discriminate|simpl in *; lia].
Qed.

Lemma joinComma_length l :
  length l <= String.length (joinComma (map ser l)).
Proof.
  induction l as [|x r IH]; [apply Nat.le_0_l|].
  destruct (ser_head x) as (c & t & Hx & _).
  destruct r as [|y r'].
  - cbn [map joinComma]. rewrite Hx. cbn [String.length length]. lia.
  - change (joinComma (map ser (x :: y :: r')))
      with (ser x ++ "," ++ joinComma (map ser (y :: r')))%string.
    rewrite !append_length, Hx.
    cbn [String.length length] in *. lia.
Qed.

Lemma joinComma_head l :
  l <> [] ->
  exists c t, joinComma (map ser l) = String c t /\ Ascii.eqb c "]" = false.
Proof.
  destruct l as [|x r]; [congruence|]. intros _.
  destruct (ser_head x) as (c & t & Hx & Hc).
  destruct r as [|y r'].
  - cbn [map joinComma]. eauto.
  - change (joinComma (map ser (x :: y :: r')))
      with (ser x ++ "," ++ joinComma (map ser (y :: r')))%string.
    rewrite Hx, append_cons. eauto.
Qed.

Lemma parseArray_stringify l :
  parseArray item (stringify_array (map ser l)) = Some l.
Proof.
  unfold parseArray, stringify_array.
  rewrite append_cons, append_nil_l, expect_cons.
  destruct l as [|x r]; [reflexivity|].
  destruct (joinComma_head (x :: r)) as (c & t & Hj & Hc); [discriminate|].
  assert (Hneq : String.eqb (joinComma (map ser (x :: r)) ++ "]") "]" = false).
  { rewrite Hj, append_cons. cbn [String.eqb]. now rewrite Hc. }
  rewrite Hneq. apply parseItems_join; [discriminate|].
  cbn [String.length]. rewrite append_length.
  pose proof (joinComma_length (x :: r)). lia.
Qed.

End Items.

(** What [saveToStorage] writes, the reference parser reads back. *)
Lemma parse_saved_songs l :
  JSON_parse_songs (Platform := Reference.platform) (stringify_songs l)
  = Some l.
Proof.
  apply (parseArray_stringify parseSong stringify_song).
  - apply parseSong_stringify.
  - intros x. unfold stringify_song. rewrite append_cons. eauto.
Qed.

Lemma parse_saved_favorites l :
  JSON_parse_strings (Platform := Reference.platform) (stringify_strings l)
  = Some l.
Proof.
  apply (parseArray_stringify parseString stringify_string).
  - apply parseString_stringify.
  - intros x. unfold stringify_string. eauto.
Qed.

End RoundTrip.

(** ** Pagination *)

Module PaginationFacts.
Import JsString ArraySort ArraySortFacts App View.

Lemma songItems_app a b : songItems (a ++ b) = songItems a ++ songItems b.
Proof.
  induction a as [|n r IH]; [reflexivity|].
  destruct n; simpl; now rewrite ?IH.
Qed.

Lemma songItems_items favs l :
  songItems (items favs l) = map (createSongElement favs) l.
Proof. induction l as [|x r IH]; simpl; now rewrite ?IH. Qed.

Lemma items_app favs a b : items favs (a ++ b) = items favs a ++ items favs b.
Proof. apply map_app. Qed.

Lemma find_items favs l rest :
  findLoadMoreBtn (items favs l ++ rest) = findLoadMoreBtn rest.
Proof. induction l as [|x r IH]; [reflexivity|exact IH]. Qed.

Lemma insertBefore_items favs l frag b rest :
  insertBeforeContainer frag (items favs l ++ LoadMoreContainer b :: rest)
  = items favs l ++ frag ++ LoadMoreContainer b :: rest.
Proof. induction l as [|x r IH]; simpl; now rewrite ?IH. Qed.

Lemma setLoaded_items favs l n b rest :
  setLoaded n (items favs l ++ LoadMoreContainer b :: rest)
  = items favs l
    ++ LoadMoreContainer {| data_loaded := n; data_total := data_total b;
                            btn_allSongs := btn_allSongs b |} :: rest.
Proof. induction l as [|x r IH]; simpl; now rewrite ?IH. Qed.

Lemma removeContainer_items favs l b rest :
  removeContainer (items favs l ++ LoadMoreContainer b :: rest)
  = items favs l ++ rest.
Proof. induction l as [|x r IH]; simpl; now rewrite ?IH. Qed.

Lemma firstn_min {A : Type} (n : nat) (l : list A) :
  firstn n l = firstn (Nat.min n (length l)) l.
Proof.
  destruct (Nat.le_ge_cases n (length l)) as [H|H].
  - now rewrite Nat.min_l.
  - rewrite Nat.min_r by exact H. rewrite firstn_all. now apply firstn_all2.
Qed.

Lemma slice_length {A : Type} (a b : nat) (l : list A) :
  length (slice a b l) = Nat.min (b - a) (length l - a).
Proof. unfold slice. now rewrite length_firstn, length_skipn. Qed.

Lemma songItems_page favs all k :
  songItems (page favs all k) = map (createSongElement favs) (firstn k all).
Proof.
  unfold page. rewrite songItems_app, songItems_items.
  destruct (k <? length all); simpl; now rewrite app_nil_r.
Qed.

Lemma find_page favs all k :
  findLoadMoreBtn (page favs all k)
  = if k <? length all
    then Some {| data_loaded := k; data_total := length all;
                 btn_allSongs := all |}
    else None.
Proof.
  unfold page. rewrite find_items. now destruct (k <? length all).
Qed.

(** One click turns the page that shows [k] songs into the page that
    shows one batch more. *)
Lemma clickLoadMore_page st all k :
  k <= length all ->
  songList st = page (favorites st) all k ->
  songList (clickLoadMore st)
  = page (favorites st) all (Nat.min (k + ITEMS_PER_PAGE) (length all)).
Proof.
  intros Hk Hst. unfold clickLoadMore. rewrite Hst, find_page.
  destruct (k <? length all) eqn:E.
  - apply Nat.ltb_lt in E. unfold loadMoreSongs. cbn [data_loaded data_total btn_allSongs].
    rewrite Hst. unfold page at 1 2 3. rewrite (proj2 (Nat.ltb_lt _ _) E).
    fold (items (favorites st) (slice k (k + ITEMS_PER_PAGE) all)).
    rewrite insertBefore_items, app_assoc, <- items_app.
    rewrite setLoaded_items. cbn [data_total btn_allSongs].
    rewrite slice_length.
    replace (k + ITEMS_PER_PAGE - k) with ITEMS_PER_PAGE by lia.
    rewrite firstn_slice by lia. rewrite <- firstn_min.
    destruct (length all <=? k + Nat.min ITEMS_PER_PAGE (length all - k)) eqn:D.
    + apply Nat.leb_le in D. cbn [songList set_songList].
      rewrite removeContainer_items. unfold page.
      replace (Nat.min (k + ITEMS_PER_PAGE) (length all) <? length all)
        with false by (symmetry; apply Nat.ltb_ge; lia).
      reflexivity.
    + apply Nat.leb_gt in D. cbn [songList set_songList]. unfold page.
      replace (Nat.min (k + ITEMS_PER_PAGE) (length all) <? length all)
        with true by (symmetry; apply Nat.ltb_lt; lia).
      replace (k + Nat.min ITEMS_PER_PAGE (length all - k))
        with (Nat.min (k + ITEMS_PER_PAGE) (length all)) by lia.
      reflexivity.
  - apply Nat.ltb_ge in E. rewrite Hst.
    replace (Nat.min (k + ITEMS_PER_PAGE) (length all)) with k by lia.
    reflexivity.
Qed.

Lemma clickLoadMore_favorites st :
  favorites (clickLoadMore st) = favorites st.
Proof.
  unfold clickLoadMore. destruct (findLoadMoreBtn (songList st)); [|reflexivity].
  unfold loadMoreSongs. now destruct (_ <=? _).
Qed.

(** *** Toggles between the clicks *)

Lemma erase_insertBefore frag nodes :
  map eraseActive (insertBeforeContainer frag nodes)
  = insertBeforeContainer (map eraseActive frag) (map eraseActive nodes).
Proof.
  induction nodes as [|n r IH]; [reflexivity|].
  destruct n; cbn [insertBeforeContainer map eraseActive];
    rewrite ?map_app, ?IH; reflexivity.
Qed.

Lemma erase_setLoaded k nodes :
  map eraseActive (setLoaded k nodes) = setLoaded k (map eraseActive nodes).
Proof.
  induction nodes as [|n r IH]; [reflexivity|].
  destruct n; cbn [setLoaded map eraseActive]; rewrite ?IH; reflexivity.
Qed.

Lemma erase_removeContainer nodes :
  map eraseActive (removeContainer nodes)
  = removeContainer (map eraseActive nodes).
Proof.
  induction nodes as [|n r IH]; [reflexivity|].
  destruct n; cbn [removeContainer map eraseActive]; rewrite ?IH; reflexivity.
Qed.

Lemma erase_find nodes :
  findLoadMoreBtn (map eraseActive nodes) = findLoadMoreBtn nodes.
Proof.
  induction nodes as [|n r IH]; [reflexivity|].
  destruct n; cbn [findLoadMoreBtn map eraseActive]; rewrite ?IH; reflexivity.
Qed.

Lemma erase_toggleActive x force nodes :
  map eraseActive (toggleActive x force nodes) = map eraseActive nodes.
Proof.
  induction nodes as [|n r IH]; [reflexivity|].
  destruct n as [e| | |]; cbn [toggleActive map eraseActive];
    rewrite ?IH; try reflexivity.
  destruct (String.eqb (data_song_id e) x); cbn [map eraseActive];
    rewrite ?IH; reflexivity.
Qed.

Lemma erase_items favs l :
  map eraseActive (items favs l) = map eraseActive (items [] l).
Proof.
  unfold items. rewrite !map_map. reflexivity.
Qed.

Lemma erase_songItems nodes :
  map el_number (songItems (map eraseActive nodes))
  = map el_number (songItems nodes)
  /\ map el_title (songItems (map eraseActive nodes))
     = map el_title (songItems nodes).
Proof.
  induction nodes as [|n r [IH1 IH2]]; [now split|].
  destruct n; cbn [songItems map eraseActive]; rewrite ?IH1, ?IH2; now split.
Qed.

(** A click does to the list without marks what it does to the list. *)
Lemma clickLoadMore_erase st st' :
  map eraseActive (songList st) = map eraseActive (songList st') ->
  map eraseActive (songList (clickLoadMore st))
  = map eraseActive (songList (clickLoadMore st')).
Proof.
  intros H. unfold clickLoadMore.
  rewrite <- (erase_find (songList st)), <- (erase_find (songList st')), H.
  destruct (findLoadMoreBtn (map eraseActive (songList st'))) as [b|];
    [|exact H].
  unfold loadMoreSongs.
  fold (items (favorites st)
          (slice (data_loaded b) (data_loaded b + ITEMS_PER_PAGE)
             (btn_allSongs b))).
  fold (items (favorites st')
          (slice (data_loaded b) (data_loaded b + ITEMS_PER_PAGE)
             (btn_allSongs b))).
  destruct (data_total b <=? _); cbn [songList set_songList];
    rewrite ?erase_removeContainer, !erase_setLoaded, !erase_insertBefore, H,
      (erase_items (favorites st)), (erase_items (favorites st'));
    reflexivity.
Qed.

Lemma toggleFavorite_erase x st :
  map eraseActive (songList (toggleFavorite x st))
  = map eraseActive (songList st).
Proof.
  unfold toggleFavorite.
  destruct (JsSet.has x (favorites st));
    cbn [songList set_songList updateStats set_stats saveToStorage
         set_localStorage set_favorites];
    apply erase_toggleActive.
Qed.

(** Toggles change no item but its mark: a run of clicks and toggles
    shows what the clicks alone show. *)
Lemma run_erase events st st' :
  map eraseActive (songList st) = map eraseActive (songList st') ->
  map eraseActive (songList (run events st))
  = map eraseActive
      (songList (Nat.iter (clicks events) clickLoadMore st')).
Proof.
  revert st st'. induction events as [|e r IH]; intros st st' H; [exact H|].
  unfold run in *. cbn [fold_left]. destruct e as [|x]; cbn [step clicks].
  - rewrite Nat.iter_succ_r. apply IH. now apply clickLoadMore_erase.
  - apply IH. now rewrite toggleFavorite_erase.
Qed.

Section WithPlatform.
Context {platform : Platform}.

Lemma renderFrame_favorites searchTerm st :
  favorites (renderFrame searchTerm st) = favorites st.
Proof.
  unfold renderFrame. destruct (Nat.eqb _ 0); [reflexivity|].
  now destruct (ITEMS_PER_PAGE <? _).
Qed.

(** The frame shows the first page of a result that is not empty. *)
Lemma renderFrame_page searchTerm st :
  let all := filteredSongs searchTerm st in
  length all <> 0 ->
  songList (renderFrame searchTerm st)
  = page (favorites st) all (Nat.min ITEMS_PER_PAGE (length all)).
Proof.
  intros all Hne. unfold renderFrame. fold all.
  rewrite (proj2 (Nat.eqb_neq _ _) Hne).
  cbn [songList set_isRendering updateStats set_stats set_songList].
  destruct (ITEMS_PER_PAGE <? length all) eqn:E.
  - apply Nat.ltb_lt in E. unfold renderSongsVirtual.
    rewrite (proj2 (Nat.ltb_lt _ _) E), slice_firstn. simpl app.
    rewrite Nat.min_l by lia. unfold page.
    now rewrite (proj2 (Nat.ltb_lt _ _) E).
  - apply Nat.ltb_ge in E. unfold renderSongsImmediate. simpl app.
    rewrite Nat.min_r by lia. unfold page.
    rewrite Nat.ltb_irrefl, firstn_all, app_nil_r. reflexivity.
Qed.

Lemma renderFrame_empty searchTerm st :
  length (filteredSongs searchTerm st) = 0 ->
  songList (renderFrame searchTerm st)
  = [EmptyState (if Nat.eqb (length (songs st)) 0
                 then NoSongsLoaded else NoSongsMatch)].
Proof.
  intros H. unfold renderFrame. now rewrite H.
Qed.

Lemma iter_favorites searchTerm st n :
  favorites (Nat.iter n clickLoadMore (renderFrame searchTerm st))
  = favorites st.
Proof.
  induction n as [|n IH]; [apply renderFrame_favorites|].
  now rewrite Nat.iter_succ, clickLoadMore_favorites.
Qed.

Lemma shown_succ n total :
  Nat.min (shown n total + ITEMS_PER_PAGE) total = shown (S n) total.
Proof. unfold shown, ITEMS_PER_PAGE. lia. Qed.

Lemma iter_page searchTerm st n :
  let all := filteredSongs searchTerm st in
  length all <> 0 ->
  songList (Nat.iter n clickLoadMore (renderFrame searchTerm st))
  = page (favorites st) all (shown n (length all)).
Proof.
  intros all Hne. induction n as [|n IH].
  - simpl Nat.iter. rewrite renderFrame_page by exact Hne. fold all.
    f_equal.
  - rewrite Nat.iter_succ, <- shown_succ.
    rewrite <- (iter_favorites searchTerm st n) at 1.
    rewrite <- (iter_favorites searchTerm st n) in IH.
    apply clickLoadMore_page; [|exact IH].
    unfold shown. lia.
Qed.

Lemma iter_empty searchTerm st n :
  length (filteredSongs searchTerm st) = 0 ->
  songList (Nat.iter n clickLoadMore (renderFrame searchTerm st))
  = songList (renderFrame searchTerm st).
Proof.
  intros H. induction n as [|n IH]; [reflexivity|].
  rewrite Nat.iter_succ. unfold clickLoadMore at 1. rewrite IH.
  rewrite (renderFrame_empty _ _ H). cbn [findLoadMoreBtn].
  now rewrite <- (renderFrame_empty _ _ H).
Qed.

(** What the frame puts in the list depends neither on the rendering
    flag nor on what the list held before. *)
Lemma renderFrame_songList_frame searchTerm st b nodes :
  songList (renderFrame searchTerm (set_songList nodes (set_isRendering b st)))
  = songList (renderFrame searchTerm st)
  /\ songList (renderFrame searchTerm (set_isRendering b st))
     = songList (renderFrame searchTerm st).
Proof.
  unfold renderFrame, filteredSongs, filterStep.
  cbn [songs favorites currentFilter currentSort set_songList set_isRendering].
  split; destruct (Nat.eqb _ 0); try reflexivity;
    now destruct (ITEMS_PER_PAGE <? _).
Qed.

(** [renderSongs], when no render is in flight, shows the first page of
    the query. *)
Lemma renderSongs_first_page st :
  isRendering st = false ->
  songItems (songList (renderSongs st))
  = map (createSongElement (favorites st)) (firstn ITEMS_PER_PAGE (query st)).
Proof.
  intros Hr. unfold renderSongs, renderSongs_request. rewrite Hr.
  set (term := trim (toLowerCase (searchInput st))).
  assert (H : songList
                (renderFrame term
                   (if 100 <? length (songs (set_isRendering true st))
                    then set_songList [LoadingIndicator]
                           (set_isRendering true st)
                    else set_isRendering true st))
              = songList (renderFrame term st)).
  { destruct (renderFrame_songList_frame term st true [LoadingIndicator])
      as [H1 H2].
    now destruct (100 <? _). }
  rewrite H. unfold query. fold term.
  destruct (Nat.eq_dec (length (filteredSongs term st)) 0) as [H0|Hne].
  - rewrite renderFrame_empty by exact H0.
    apply length_zero_iff_nil in H0. now rewrite H0.
  - rewrite renderFrame_page by exact Hne. rewrite songItems_page.
    now rewrite <- firstn_min.
Qed.

Lemma clickLoadMore_frame st l f k s :
  songList
    (clickLoadMore
       (set_songs l (set_currentFilter f (set_currentSort k
          (set_searchInput s st)))))
  = songList (clickLoadMore st).
Proof.
  unfold clickLoadMore. cbn [songList set_songs set_currentFilter
    set_currentSort set_searchInput].
  destruct (findLoadMoreBtn (songList st)); [|reflexivity].
  unfold loadMoreSongs. cbn [songList favorites set_songs set_currentFilter
    set_currentSort set_searchInput].
  now destruct (_ <=? _).
Qed.

Lemma iter_rendered searchTerm st n :
  let all := filteredSongs searchTerm st in
  songItems (songList (Nat.iter n clickLoadMore (renderFrame searchTerm st)))
  = map (createSongElement (favorites st))
      (firstn (shown n (length all)) all).
Proof.
  intros all. destruct (Nat.eq_dec (length all) 0) as [H0|Hne].
  - rewrite iter_empty, renderFrame_empty by exact H0.
    apply length_zero_iff_nil in H0. fold all. rewrite H0.
    now rewrite firstn_nil.
  - rewrite iter_page by exact Hne. apply songItems_page.
Qed.

Lemma run_rendered searchTerm st events :
  let all := filteredSongs searchTerm st in
  let stE := run events (renderFrame searchTerm st) in
  let count := shown (clicks events) (length all) in
  map el_number (songItems (songList stE)) = map number (firstn count all)
  /\ map el_title (songItems (songList stE))
     = map (fun s => Display.addSpacesToText (title s)) (firstn count all).
Proof.
  intros all stE count.
  destruct (erase_songItems (songList stE)) as [N1 T1].
  destruct (erase_songItems
              (songList (Nat.iter (clicks events) clickLoadMore
                           (renderFrame searchTerm st)))) as [N2 T2].
  rewrite <- N1, <- T1. unfold stE.
  rewrite (run_erase events _ (renderFrame searchTerm st) eq_refl).
  rewrite N2, T2, iter_rendered, !map_map. now split.
Qed.

(** C2: after a fresh frame and [n] clicks on the load-more button, the
    items in the list are exactly the first min (50 * (n + 1), total)
    songs of the filtered and sorted result, in that order, so none is
    repeated and none is skipped; the page size is 50; the button is there
    exactly while songs remain, and carries the same result array; one
    more click appends the next slice of that array to the items already
    shown; a click reads neither the catalog nor the filter, the sort key
    or the search box, so nothing is filtered or sorted again; and
    favorite toggles between the clicks change nothing of this: after any
    run of clicks and toggles the songs shown are the first
    min (50 * (clicks + 1), total) of the result. *)
Theorem C2_pagination :
  forall (st : AppState) (searchTerm : string) (n : nat),
    let all := filteredSongs searchTerm st in
    let total := length all in
    let stN := Nat.iter n clickLoadMore (renderFrame searchTerm st) in
    let rendered := songItems (songList stN) in
    let count := Nat.min (ITEMS_PER_PAGE * (n + 1)) total in
    ITEMS_PER_PAGE = 50
    /\ rendered = map (createSongElement (favorites st)) (firstn count all)
    /\ length rendered = count
    /\ findLoadMoreBtn (songList stN)
       = (if count <? total
          then Some {| data_loaded := count; data_total := total;
                       btn_allSongs := all |}
          else None)
    /\ songItems (songList (clickLoadMore stN))
       = rendered
         ++ map (createSongElement (favorites st))
              (slice count (count + ITEMS_PER_PAGE) all)
    /\ (forall (l : list Song) (f : Filter) (k : SortKey) (s : string),
           songList
             (clickLoadMore
                (set_songs l (set_currentFilter f (set_currentSort k
                   (set_searchInput s stN)))))
           = songList (clickLoadMore stN))
    /\ (forall events : list Event,
           let stE := run events (renderFrame searchTerm st) in
           let shownE :=
             Nat.min (ITEMS_PER_PAGE * (clicks events + 1)) total in
           map el_number (songItems (songList stE))
           = map number (firstn shownE all)
           /\ map el_title (songItems (songList stE))
              = map (fun s => Display.addSpacesToText (title s))
                  (firstn shownE all)).
Proof.
  intros st searchTerm n all total stN rendered count.
  split; [reflexivity|].
  assert (Hcount : count = shown n total) by reflexivity.
  assert (Hrendered :
    rendered = map (createSongElement (favorites st)) (firstn count all)).
  { unfold rendered, stN. rewrite Hcount. apply iter_rendered. }
  split; [exact Hrendered|]. split.
  { rewrite Hrendered, length_map, length_firstn. fold total.
    unfold count. lia. }
  split.
  { unfold stN. destruct (Nat.eq_dec total 0) as [H0|Hne].
    - rewrite iter_empty, renderFrame_empty by exact H0.
      replace (count <? total) with false
        by (symmetry; apply Nat.ltb_ge; lia).
      reflexivity.
    - rewrite iter_page by exact Hne. apply find_page. }
  split.
  { rewrite Hrendered, <- map_app.
    change (clickLoadMore stN)
      with (Nat.iter (S n) clickLoadMore (renderFrame searchTerm st)).
    rewrite iter_rendered. fold all total.
    rewrite firstn_slice by lia.
    rewrite <- shown_succ, <- Hcount. unfold total.
    now rewrite <- firstn_min. }
  split; [intros l f k s; apply clickLoadMore_frame|].
  intros events stE shownE. apply run_rendered.
Qed.

End WithPlatform.

End PaginationFacts.

(** ** The display transform *)

Module DisplayFacts.
Import JsString Display App.










Section WithPlatform.
Context {platform : Platform}.

Lemma renderFrame_songs searchTerm st :
  songs (renderFrame searchTerm st) = songs st
  /\ localStorage (renderFrame searchTerm st) = localStorage st.
Proof.
  unfold renderFrame. destruct (Nat.eqb _ 0); [now split|].
  now destruct (ITEMS_PER_PAGE <? _).
Qed.

Lemma renderSongs_songs st :
  songs (renderSongs st) = songs st
  /\ localStorage (renderSongs st) = localStorage st.
Proof.
  unfold renderSongs. destruct (isRendering st); [now split|].
  unfold renderSongs_request.
  destruct (renderFrame_songs (trim (toLowerCase (searchInput st)))
              (if 100 <? length (songs (set_isRendering true st))
               then set_songList [LoadingIndicator] (set_isRendering true st)
               else set_isRendering true st)) as [H1 H2].
  rewrite H1, H2. now destruct (100 <? _).
Qed.


End WithPlatform.

End DisplayFacts.

(** ** Favorites and persistence *)

Module FavoritesFacts.
Import JsString App View JsSetFacts.

Lemma has_ext y s t : (In y s <-> In y t) -> JsSet.has y s = JsSet.has y t.
Proof.
  intros H. destruct (JsSet.has y t) eqn:E.
  - apply has_In. apply H. now apply has_In.
  - apply has_false. intros Hs. apply has_false in E. apply E. now apply H.
Qed.

Lemma toggleFavorite_favorites x st :
  favorites (toggleFavorite x st) = toggled x (favorites st).
Proof.
  unfold toggleFavorite, toggled. now destruct (JsSet.has x (favorites st)).
Qed.

Lemma toggled_eq x favs :
  toggled x favs
  = if JsSet.has x favs then JsSet.delete x favs else favs ++ [x].
Proof.
  unfold toggled, JsSet.add. now destruct (JsSet.has x favs).
Qed.

Lemma toggled_has x favs :
  JsSet.has x (toggled x favs) = negb (JsSet.has x favs).
Proof.
  rewrite toggled_eq. destruct (JsSet.has x favs) eqn:E; simpl.
  - apply has_false. rewrite delete_In. tauto.
  - apply has_In. rewrite in_app_iff. simpl. tauto.
Qed.

Lemma toggled_other x y favs :
  y <> x -> JsSet.has y (toggled x favs) = JsSet.has y favs.
Proof.
  intros Hne. apply has_ext. rewrite toggled_eq.
  destruct (JsSet.has x favs).
  - rewrite delete_In. tauto.
  - rewrite in_app_iff. simpl. split; [|tauto].
    intros [H|[H|[]]]; [exact H|congruence].
Qed.

Lemma toggled_twice x favs :
  toggled x (toggled x favs)
  = if JsSet.has x favs then JsSet.delete x favs ++ [x] else favs.
Proof.
  rewrite (toggled_eq x (toggled x favs)), toggled_has.
  destruct (JsSet.has x favs) eqn:E; cbn [negb].
  - rewrite toggled_eq, E. reflexivity.
  - rewrite toggled_eq, E, delete_app, delete_single, app_nil_r.
    apply delete_absent. now apply has_false.
Qed.

Lemma toggled_twice_has x y favs :
  JsSet.has y (toggled x (toggled x favs)) = JsSet.has y favs.
Proof.
  destruct (String.eqb_spec y x) as [->|Hne].
  - rewrite !toggled_has. apply negb_involutive.
  - now rewrite !toggled_other.
Qed.




Lemma saveToStorage_lookup st :
  localStorage (saveToStorage st) !! SONGS = Some (stringify_songs (songs st))
  /\ localStorage (saveToStorage st) !! FAVORITES
     = Some (Json.stringify_strings (favorites st)).
Proof.
  unfold saveToStorage. cbn [localStorage set_localStorage]. split.
  - rewrite lookup_insert_ne by discriminate. apply lookup_insert_eq.
  - apply lookup_insert_eq.
Qed.

Lemma saveToStorage_other st key :
  key <> SONGS -> key <> FAVORITES ->
  localStorage (saveToStorage st) !! key = localStorage st !! key.
Proof.
  intros H1 H2. unfold saveToStorage. cbn [localStorage set_localStorage].
  now rewrite !lookup_insert_ne by congruence.
Qed.

Lemma toggleFavorite_storage x st :
  localStorage (toggleFavorite x st) !! SONGS
  = Some (stringify_songs (songs st))
  /\ localStorage (toggleFavorite x st) !! FAVORITES
     = Some (Json.stringify_strings (favorites (toggleFavorite x st))).
Proof.
  rewrite toggleFavorite_favorites. unfold toggleFavorite, toggled.
  destruct (JsSet.has x (favorites st));
    cbn [localStorage set_songList updateStats set_stats];
    [apply (saveToStorage_lookup
              (set_favorites (JsSet.delete x (favorites st)) st))
    |apply (saveToStorage_lookup
              (set_favorites (JsSet.add x (favorites st)) st))].
Qed.

Lemma toggleFavorite_frame x st :
  songs (toggleFavorite x st) = songs st
  /\ currentFilter (toggleFavorite x st) = currentFilter st
  /\ currentSort (toggleFavorite x st) = currentSort st
  /\ currentPage (toggleFavorite x st) = currentPage st
  /\ isRendering (toggleFavorite x st) = isRendering st
  /\ searchInput (toggleFavorite x st) = searchInput st.
Proof.
  unfold toggleFavorite. now destruct (JsSet.has x (favorites st)).
Qed.



(** C5, as the code has it: one toggle removes [x] when it is a favorite
    and appends it otherwise, and saves; two toggles in a row restore the
    membership of every number; they restore the set itself, and with it
    the saved text, when [x] was not a favorite before, and otherwise
    leave the set with [x] moved to the end, and the saved text is the
    serialization of that. *)
Theorem C5_toggle_twice :
  forall (st : AppState) (x : string),
    let st1 := toggleFavorite x st in
    let st2 := toggleFavorite x st1 in
    favorites st1
    = (if JsSet.has x (favorites st)
       then JsSet.delete x (favorites st)
       else favorites st ++ [x])
    /\ JsSet.has x (favorites st1) = negb (JsSet.has x (favorites st))
    /\ (forall y : string,
           JsSet.has y (favorites st2) = JsSet.has y (favorites st))
    /\ favorites st2
       = (if JsSet.has x (favorites st)
          then JsSet.delete x (favorites st) ++ [x]
          else favorites st)
    /\ localStorage st1 !! FAVORITES
       = Some (Json.stringify_strings (favorites st1))
    /\ localStorage st2 !! FAVORITES
       = Some (Json.stringify_strings
                 (if JsSet.has x (favorites st)
                  then JsSet.delete x (favorites st) ++ [x]
                  else favorites st)).
Proof.
  intros st x st1 st2. unfold st2, st1.
  rewrite !toggleFavorite_favorites.
  split; [apply toggled_eq|].
  split; [apply toggled_has|].
  split; [intros y; apply toggled_twice_has|].
  split; [apply toggled_twice|].
  split.
  - rewrite <- toggleFavorite_favorites. apply toggleFavorite_storage.
  - rewrite <- toggled_twice, <- !toggleFavorite_favorites.
    apply toggleFavorite_storage.
Qed.

(** C5, as stated, fails: with the favorites 12 and 7 saved, toggling 12
    twice leaves 7 and 12 in the storage, in that order, which is another
    text than the one saved before. *)
Lemma C5_counterexample :
  let st := Sample.session in
  let st2 := toggleFavorite "12" (toggleFavorite "12" st) in
  localStorage st !! FAVORITES = Some (Json.stringify_strings ["12"; "7"])
  /\ localStorage st2 !! FAVORITES = Some (Json.stringify_strings ["7"; "12"])
  /\ localStorage st2 !! FAVORITES <> localStorage st !! FAVORITES.
Proof.
  assert (H1 : localStorage Sample.session !! FAVORITES
               = Some (Json.stringify_strings ["12"; "7"])).
  { apply saveToStorage_lookup. }
  assert (H2 : localStorage
                 (toggleFavorite "12" (toggleFavorite "12" Sample.session))
                 !! FAVORITES
               = Some (Json.stringify_strings ["7"; "12"])).
  { rewrite (proj2 (toggleFavorite_storage _ _)).
    now rewrite !toggleFavorite_favorites. }
  cbv zeta. rewrite H1, H2. repeat split. discriminate.
Qed.


Section WithPlatform.
Context {platform : Platform}.

(** C10: saving writes both keys, so a toggle, which changes only the
    favorites, stores the serialization of the whole catalog again next
    to the favorites, and after it the saved song list is the
    serialization of the catalog in memory; a confirmed clear-all stores
    the two empty arrays. *)
Theorem C10_persist_both_keys :
  (forall st : AppState,
      localStorage (saveToStorage st) !! SONGS
      = Some (stringify_songs (songs st))
      /\ localStorage (saveToStorage st) !! FAVORITES
         = Some (Json.stringify_strings (favorites st)))
  /\ (forall (st : AppState) (x : string),
         let st' := toggleFavorite x st in
         localStorage st' !! SONGS = Some (stringify_songs (songs st'))
         /\ localStorage st' !! FAVORITES
            = Some (Json.stringify_strings (favorites st'))
         /\ songs st' = songs st)
  /\ (forall st : AppState,
         let st' := onClearAll true st in
         localStorage st' !! SONGS = Some (stringify_songs [])
         /\ localStorage st' !! FAVORITES = Some (Json.stringify_strings [])
         /\ songs st' = []
         /\ favorites st' = []).
Proof.
  split; [exact saveToStorage_lookup|]. split.
  - intros st x st'. unfold st'.
    destruct (toggleFavorite_frame x st) as [Hs _].
    rewrite Hs. split; [|split; [|reflexivity]];
      apply toggleFavorite_storage.
  - intros st st'. unfold st', onClearAll.
    set (saved := saveToStorage
                    (set_favorites (JsSet.clear (favorites st))
                       (set_songs [] st))).
    destruct (DisplayFacts.renderSongs_songs saved) as [Hs Hl].
    rewrite Hl, Hs.
    split; [apply (saveToStorage_lookup
                     (set_favorites [] (set_songs [] st)))|].
    split; [apply (saveToStorage_lookup
                     (set_favorites [] (set_songs [] st)))|].
    split; [reflexivity|].
    unfold renderSongs. destruct (isRendering saved); [reflexivity|].
    unfold renderSongs_request.
    destruct (100 <? _); now rewrite PaginationFacts.renderFrame_favorites.
Qed.

End WithPlatform.

End FavoritesFacts.

(** ** Loading the catalog at start-up *)

Module StartupFacts.
Import JsString ArraySort ArraySortFacts App View.

Section WithPlatform.
Context {platform : Platform}.



(** The [catch] path: a rejected fetch, or a body that does not parse,
    puts the parsed persisted copy in the place of the catalog. *)
Lemma loadSongs_catch outcome st saved l :
  fetchFails outcome ->
  localStorage st !! SONGS = Some saved ->
  truthy saved = true ->
  JSON_parse_songs saved = Some l ->
  loadSongs outcome st = Some (set_songs l st).
Proof.
  intros [-> | ->] Hs Ht Hp; unfold loadSongs; now rewrite Hs, Ht, Hp.
Qed.


(** A response that is not [ok] enters neither the body of the [if] nor
    the [catch] handler: the catalog stays as it is, whatever the storage
    holds. *)
Lemma loadSongs_not_ok json st :
  loadSongs (FetchResolved false json) st = Some st.
Proof. reflexivity. Qed.

Lemma filteredSongs_nil searchTerm st :
  songs st = [] -> filteredSongs searchTerm st = [].
Proof.
  intros H. unfold filteredSongs, filterStep. now rewrite H.
Qed.

(** The two empty states. *)
Lemma renderFrame_empty_states searchTerm st :
  filteredSongs searchTerm st = [] ->
  songList (renderFrame searchTerm st)
  = [EmptyState (match songs st with
                 | [] => NoSongsLoaded
                 | _ :: _ => NoSongsMatch
                 end)].
Proof.
  intros H. rewrite PaginationFacts.renderFrame_empty by now rewrite H.
  now destruct (songs st).
Qed.

Lemma renderSongs_empty_catalog st :
  isRendering st = false ->
  songs st = [] ->
  songList (renderSongs st) = [EmptyState NoSongsLoaded].
Proof.
  intros Hr Hs. unfold renderSongs, renderSongs_request. rewrite Hr.
  cbn [songs set_isRendering]. rewrite Hs. cbn [length Nat.ltb Nat.leb].
  rewrite renderFrame_empty_states by now apply filteredSongs_nil.
  cbn [songs set_isRendering]. now rewrite Hs.
Qed.



End WithPlatform.

(** The response the service worker makes up when the network is down is
    not [ok]. *)
Lemma offlineResponse_not_ok :
  ServiceWorker.ok ServiceWorker.offlineResponse = false.
Proof. reflexivity. Qed.

(** On the reference platform, a start with a failed fetch brings back
    the catalog and the favorites the previous session saved. *)
Lemma restart_restores outcome st input :
  fetchFails outcome ->
  exists st' : AppState,
    init (platform := Reference.platform) outcome
      (initialState input (localStorage (saveToStorage st))) = Some st'
    /\ songs st' = songs st
    /\ favorites st' = JsSet.ofArray (favorites st).
Proof.
  intros Hfail.
  destruct (FavoritesFacts.saveToStorage_lookup st) as [Hs Hf].
  set (ls := localStorage (saveToStorage st)) in *.
  set (st0 := initialState input ls).
  assert (Hload : loadSongs (platform := Reference.platform) outcome st0
                  = Some (set_songs (songs st) st0)).
  { apply loadSongs_catch with (stringify_songs (songs st));
      [exact Hfail|exact Hs|reflexivity|apply RoundTrip.parse_saved_songs]. }
  assert (Hfav : loadFavorites (platform := Reference.platform)
                   (set_songs (songs st) st0)
                 = Some (set_favorites (JsSet.ofArray (favorites st))
                           (set_songs (songs st) st0))).
  { unfold loadFavorites. cbn [localStorage set_songs st0 initialState].
    rewrite Hf. change (truthy (Json.stringify_strings (favorites st)))
      with true. cbv iota.
    now rewrite RoundTrip.parse_saved_favorites. }
  eexists. split.
  - unfold init, loadFromStorage. rewrite Hload, Hfav. reflexivity.
  - split.
    + now rewrite (proj1 (DisplayFacts.renderSongs_songs _)).
    + unfold renderSongs. cbn [isRendering set_favorites set_songs st0
        initialState]. unfold renderSongs_request.
      destruct (100 <? _); now rewrite PaginationFacts.renderFrame_favorites.
Qed.

(** A response that is not [ok] is not a failure in the sense of the
    catch handler.  With the catalog of an earlier session in the storage
    and the start-up fetch answered by the 503 response of the service
    worker, the catalog stays empty and the persisted copy is not used,
    while a rejected fetch brings the persisted copy back. *)
Lemma not_ok_response_no_fallback :
  let ls := localStorage Sample.session in
  let st0 := initialState EmptyString ls in
  let answered :=
    FetchResolved (ServiceWorker.ok ServiceWorker.offlineResponse) None in
  (exists saved : string,
      ls !! SONGS = Some saved
      /\ truthy saved = true
      /\ JSON_parse_songs (Platform := Reference.platform) saved
         = Some Sample.catalog)
  /\ (exists st' : AppState,
         init (platform := Reference.platform) answered st0 = Some st'
         /\ songs st' = []
         /\ songList st' = [EmptyState NoSongsLoaded])
  /\ (exists st' : AppState,
         init (platform := Reference.platform) FetchRejected st0 = Some st'
         /\ songs st' = Sample.catalog).
Proof.
  split; [|split].
  - exists (stringify_songs Sample.catalog). split; [|split].
    + apply FavoritesFacts.saveToStorage_lookup.
    + reflexivity.
    + vm_compute. reflexivity.
  - eexists. split; [vm_compute; reflexivity|]. split; reflexivity.
  - eexists. split; [vm_compute; reflexivity|]. reflexivity.
Qed.

End StartupFacts.

(** ** The service worker *)

Module ServiceWorkerFacts.
Import JsString ServiceWorker.

(** *** Buckets *)


Lemma Caches_has_In name cs :
  Caches_has name cs = true <-> In name (Caches_keys cs).
Proof.
  unfold Caches_has. rewrite existsb_exists. split.
  - intros [y [Hy E]]. apply String.eqb_eq in E. now subst.
  - intros H. exists name. split; [exact H|apply String.eqb_refl].
Qed.


Lemma Caches_has_open name cs : Caches_has name (Caches_open name cs) = true.
Proof.
  unfold Caches_open. destruct (Caches_has name cs) eqn:E; [exact E|].
  apply Caches_has_In. unfold Caches_keys. rewrite map_app, in_app_iff.
  right. now left.
Qed.

Lemma Caches_match_open u name cs :
  Caches_match u (Caches_open name cs) = Caches_match u cs.
Proof.
  unfold Caches_open. destruct (Caches_has name cs); [reflexivity|].
  induction cs as [|[k c] rest IH]; [reflexivity|].
  simpl. now destruct (Cache_match u c).
Qed.





(** *** Activation *)

Lemma Caches_keys_delete name cs :
  Caches_keys (Caches_delete name cs)
  = List.filter (fun k => negb (String.eqb k name)) (Caches_keys cs).
Proof.
  unfold Caches_keys, Caches_delete.
  induction cs as [|[k c] rest IH]; [reflexivity|].
  simpl. destruct (String.eqb k name); simpl; now rewrite IH.
Qed.

Lemma activate_fold_In names cs name :
  In name
    (Caches_keys
       (fold_left
          (fun acc cache =>
             if negb (String.eqb cache CACHE_NAME)
             then Caches_delete cache acc else acc)
          names cs))
  <-> In name (Caches_keys cs) /\ (name = CACHE_NAME \/ ~ In name names).
Proof.
  revert cs. induction names as [|n rest IH]; intros cs; cbn [fold_left].
  - simpl. tauto.
  - rewrite IH. cbn [In].
    destruct (String.eqb_spec name CACHE_NAME) as [Ec|Ec];
      destruct (String.eqb_spec n CACHE_NAME) as [En|En]; cbn [negb];
      rewrite ?Caches_keys_delete, ?filter_In, ?negb_true_iff,
        ?String.eqb_neq;
      intuition congruence.
Qed.

Lemma activate_keys_In cs name :
  In name (Caches_keys (activate cs))
  <-> name = CACHE_NAME /\ In CACHE_NAME (Caches_keys cs).
Proof.
  unfold activate. rewrite activate_fold_In. split.
  - intros [H1 [H2|H2]]; [subst; auto|contradiction].
  - intros [-> H]. auto.
Qed.

Lemma Caches_get_delete name other cs :
  other <> name ->
  Caches_get name (Caches_delete other cs) = Caches_get name cs.
Proof.
  intros Hne. unfold Caches_delete.
  induction cs as [|[k c] rest IH]; [reflexivity|].
  cbn [List.filter fst]. destruct (String.eqb_spec k other) as [->|Hk].
  - cbn [negb Caches_get]. rewrite (proj2 (String.eqb_neq _ _) Hne). exact IH.
  - cbn [negb Caches_get]. now rewrite IH.
Qed.

Lemma activate_get cs :
  Caches_get CACHE_NAME (activate cs) = Caches_get CACHE_NAME cs.
Proof.
  unfold activate. generalize (Caches_keys cs) as names. intros names.
  revert cs. induction names as [|n rest IH]; intros cs; [reflexivity|].
  cbn [fold_left]. rewrite IH.
  destruct (String.eqb_spec n CACHE_NAME) as [->|Hn]; [reflexivity|].
  cbn [negb]. now apply Caches_get_delete.
Qed.

Lemma bucketNames_In cs name :
  name ∈ bucketNames cs <-> In name (Caches_keys cs).
Proof.
  unfold bucketNames. rewrite elem_of_list_to_set. apply list_elem_of_In.
Qed.

Lemma Caches_keys_update name f cs :
  Caches_keys (Caches_update name f cs) = Caches_keys cs.
Proof.
  unfold Caches_keys, Caches_update. rewrite map_map. apply map_ext.
  intros [k c]. cbn [fst snd]. now destruct (String.eqb k name).
Qed.

Lemma install_has net cs :
  Caches_has CACHE_NAME (fst (install true net cs)) = true.
Proof.
  unfold install. destruct (fetchAll net ASSETS); cbn [fst].
  - apply Caches_has_In. rewrite Caches_keys_update.
    apply Caches_has_In, Caches_has_open.
  - apply Caches_has_open.
Qed.

Lemma bucketNames_activate cs :
  bucketNames (activate cs)
  = (if Caches_has CACHE_NAME cs then {[CACHE_NAME]} else ∅).
Proof.
  apply set_eq. intros name. rewrite bucketNames_In, activate_keys_In.
  destruct (Caches_has CACHE_NAME cs) eqn:E.
  - apply Caches_has_In in E. rewrite elem_of_singleton. tauto.
  - rewrite elem_of_empty. split; [|tauto]. intros [_ H].
    apply Caches_has_In in H. congruence.
Qed.

(** C4, as the code has it: activation deletes every bucket whose name
    differs from the current version tag and creates none, so the names
    left are the names before restricted to the tag: the singleton of the
    tag when a bucket of that name existed, as it does after an install
    that could open it, and no name at all otherwise; the current bucket
    keeps its content. *)
Theorem C4_activation_buckets :
  forall cs : CacheStorage,
    (forall name : string,
        name ∈ bucketNames (activate cs)
        <-> name = CACHE_NAME /\ CACHE_NAME ∈ bucketNames cs)
    /\ bucketNames (activate cs) = bucketNames cs ∩ {[CACHE_NAME]}
    /\ bucketNames (activate cs)
       = (if Caches_has CACHE_NAME cs then {[CACHE_NAME]} else ∅)
    /\ Caches_get CACHE_NAME (activate cs) = Caches_get CACHE_NAME cs
    /\ (forall net : Network,
           bucketNames (activate (fst (install true net cs)))
           = {[CACHE_NAME]}).
Proof.
  intros cs.
  assert (H : forall name : string,
             name ∈ bucketNames (activate cs)
             <-> name = CACHE_NAME /\ CACHE_NAME ∈ bucketNames cs).
  { intros name. rewrite !bucketNames_In. apply activate_keys_In. }
  split; [exact H|]. split.
  { apply set_eq. intros name. rewrite H, elem_of_intersection,
      elem_of_singleton. split; [intros [-> Hc]; auto|intros [Hc ->]; auto]. }
  split; [apply bucketNames_activate|].
  split; [apply activate_get|].
  intros net. now rewrite bucketNames_activate, install_has.
Qed.

(** C4, as stated, fails: when the install could not open the bucket of
    the current version (its catch handler only logs), the storage still
    holds the bucket of the previous version alone, and activation leaves
    no bucket at all, not the singleton of the current tag. *)
Lemma C4_counterexample :
  let before := fst (install false Sample.online Sample.staleStorage) in
  bucketNames before = {[ "songbook-v1.4"%string ]}
  /\ bucketNames (activate before) = ∅
  /\ bucketNames (activate before) <> {[CACHE_NAME]}.
Proof.
  cbv zeta.
  assert (H : bucketNames
                (activate (fst (install false Sample.online
                                  Sample.staleStorage))) = ∅).
  { now rewrite bucketNames_activate. }
  split; [|split; [exact H|]].
  - unfold bucketNames. cbn. apply set_eq. intros x. set_solver.
  - rewrite H. intros E.
    assert (Hin : CACHE_NAME ∈ (∅ : gset string))
      by (rewrite E; now apply elem_of_singleton).
    now apply elem_of_empty in Hin.
Qed.

(** *** Fetch *)



End ServiceWorkerFacts.

(** ** The theorems at the sample data *)

Module Witnesses.
Import JsString ArraySort App ServiceWorker.

(** The sort theorem on the reference platform and the sample session. *)
Lemma C6_witness :
  (forall a b : string,
      Z.sgn (Reference.codeUnitCompare a b)
      = (- Z.sgn (Reference.codeUnitCompare b a))%Z)
  /\ (forall a b c : string,
         (Reference.codeUnitCompare a b <= 0)%Z ->
         (Reference.codeUnitCompare b c <= 0)%Z ->
         (Reference.codeUnitCompare a c <= 0)%Z)
  /\ let st := Sample.session in
     let key := sortField (currentSort st) in
     let result :=
       filteredSongs (platform := Reference.platform) EmptyString st in
     StronglySorted
       (fun a b => (Reference.codeUnitCompare (key a) (key b) <= 0)%Z) result
     /\ Permutation result
          (filterStep EmptyString st)
     /\ sort (compareSongs (platform := Reference.platform) (currentSort st))
          result = result.
Proof.
  split; [exact ReferenceFacts.codeUnitCompare_antisym|].
  split; [exact ReferenceFacts.codeUnitCompare_trans|].
  destruct (SortFacts.C6_sort_ascending_stable_idempotent
              (platform := Reference.platform)
              ReferenceFacts.codeUnitCompare_antisym
              ReferenceFacts.codeUnitCompare_trans
              Sample.session EmptyString) as (H1 & H2 & _ & H4 & _).
  split; [exact H1|]. split; [exact H2|exact H4].
Defined.



End Witnesses.

(** ** Escaping *)

Module HtmlFacts.
Import JsStringFacts Html.





End HtmlFacts.

(** ** Theme management *)

Module ThemeFacts.
Import JsString App Theme.

Lemma toggleTheme_theme p :
  exists t : string,
    (t = "light"%string \/ t = "dark"%string)
    /\ dataTheme (toggleTheme p) = Some t
    /\ localStorage (app (toggleTheme p)) !! THEME = Some t
    /\ themeIcon (toggleTheme p)
       = Some (if String.eqb t "dark" then Sun else Moon).
Proof.
  unfold toggleTheme. cbn [dataTheme app themeIcon updateThemeIcon setTheme
    localStorage set_localStorage].
  destruct (dataTheme p) as [t|]; [destruct (String.eqb t "dark")|];
    eexists; (split; [|split; [reflexivity|split;
      [apply lookup_insert_eq|reflexivity]]]); auto.
Qed.

Lemma loadTheme_saved prefersDark p t :
  localStorage (app p) !! THEME = Some t ->
  truthy t = true ->
  dataTheme (loadTheme prefersDark p) = Some t
  /\ themeIcon (loadTheme prefersDark p)
     = Some (if String.eqb t "dark" then Sun else Moon)
  /\ app (loadTheme prefersDark p) = app p.
Proof.
  intros H Ht. unfold loadTheme. rewrite H, Ht. repeat split.
Qed.

(** X2: a theme toggle always ends in light or dark: light when the
    theme was dark and dark in every other case; it stores the new theme
    and sets the icon to match; and [loadTheme] on a later visit, with
    the storage the toggle left, restores that theme and icon whatever
    the system prefers.  From the first toggle on, two toggles in a row
    bring back the theme, the icon and the stored theme. *)
Theorem X2_theme_toggle_persists :
  forall p : Page,
    let p' := toggleTheme p in
    (exists t : string,
        (t = "light"%string \/ t = "dark"%string)
        /\ dataTheme p' = Some t
        /\ localStorage (app p') !! THEME = Some t
        /\ themeIcon p' = Some (if String.eqb t "dark" then Sun else Moon))
    /\ (dataTheme p = Some "dark"%string -> dataTheme p' = Some "light"%string)
    /\ (dataTheme p <> Some "dark"%string -> dataTheme p' = Some "dark"%string)
    /\ (forall (prefersDark : bool) (input : string),
           let visit :=
             loadTheme prefersDark
               (initialPage input (localStorage (app p'))) in
           dataTheme visit = dataTheme p' /\ themeIcon visit = themeIcon p')
    /\ (dataTheme (toggleTheme (toggleTheme p')) = dataTheme p'
        /\ themeIcon (toggleTheme (toggleTheme p')) = themeIcon p'
        /\ localStorage (app (toggleTheme (toggleTheme p'))) !! THEME
           = localStorage (app p') !! THEME).
Proof.
  intros p p'. split; [apply toggleTheme_theme|].
  split.
  { intros H. unfold p', toggleTheme. now rewrite H. }
  split.
  { intros H. unfold p', toggleTheme.
    destruct (dataTheme p) as [t|]; [|reflexivity].
    destruct (String.eqb_spec t "dark"); [congruence|reflexivity]. }
  split.
  { intros prefersDark input visit.
    destruct (toggleTheme_theme p) as (t & Ht & H1 & H2 & H3).
    fold p' in H1, H2, H3.
    destruct (loadTheme_saved prefersDark
                (initialPage input (localStorage (app p'))) t) as (L1 & L2 & _).
    - exact H2.
    - now destruct Ht as [-> | ->].
    - unfold visit. now rewrite L1, L2, H1, H3. }
  destruct (toggleTheme_theme p) as (t & Ht & H1 & H2 & H3).
  fold p' in H1, H2, H3.
  assert (Hlight : dataTheme p' = Some "light"%string
                   \/ dataTheme p' = Some "dark"%string)
    by (destruct Ht as [-> | ->]; auto).
  unfold toggleTheme at 1 3 5.
  cbn [dataTheme app themeIcon updateThemeIcon setTheme localStorage
       set_localStorage].
  rewrite !lookup_insert_eq, H2, H3.
  unfold toggleTheme.
  cbn [dataTheme app themeIcon updateThemeIcon setTheme localStorage
       set_localStorage].
  rewrite H1. destruct Ht as [-> | ->]; repeat split.
Qed.

(** X3: with no theme in the storage (or the empty text), [loadTheme]
    follows the preference of the system, dark or light, sets the icon to
    match and writes nothing to the storage: the choice is not
    persisted until the first toggle. *)
Theorem X3_loadTheme_system_preference :
  forall (prefersDark : bool) (p : Page),
    localStorage (app p) !! THEME = None
    \/ localStorage (app p) !! THEME = Some EmptyString ->
    let p' := loadTheme prefersDark p in
    dataTheme p'
    = Some (if prefersDark then "dark"%string else "light"%string)
    /\ themeIcon p' = Some (if prefersDark then Sun else Moon)
    /\ app p' = app p.
Proof.
  intros prefersDark p H p'. unfold p', loadTheme.
  destruct H as [H|H]; rewrite H; cbn [truthy]; destruct prefersDark;
    repeat split.
Qed.

Lemma X3_witness :
  let p := initialPage EmptyString ∅ in
  (localStorage (app p) !! THEME = None
   \/ localStorage (app p) !! THEME = Some EmptyString)
  /\ dataTheme (loadTheme true p) = Some "dark"%string
  /\ themeIcon (loadTheme true p) = Some Sun.
Proof.
  cbv zeta.
  assert (H : localStorage (app (initialPage EmptyString ∅)) !! THEME = None
              \/ localStorage (app (initialPage EmptyString ∅)) !! THEME
                 = Some EmptyString) by (left; reflexivity).
  split; [exact H|].
  destruct (X3_loadTheme_system_preference true
              (initialPage EmptyString ∅) H) as (H1 & H2 & _).
  split; [exact H1|exact H2].
Defined.

End ThemeFacts.

(** ** Sessions of user events *)

Module SessionFacts.
Import JsString JsStringFacts ArraySort ArraySortFacts App View Session.

Lemma clickLoadMore_fields st :
  songs (clickLoadMore st) = songs st
  /\ favorites (clickLoadMore st) = favorites st
  /\ localStorage (clickLoadMore st) = localStorage st
  /\ isRendering (clickLoadMore st) = isRendering st
  /\ songCount (clickLoadMore st) = songCount st
  /\ favoriteCount (clickLoadMore st) = favoriteCount st.
Proof.
  unfold clickLoadMore. destruct (findLoadMoreBtn (songList st));
    [|repeat split].
  unfold loadMoreSongs. destruct (_ <=? _); repeat split.
Qed.

Lemma toggleFavorite_stats x st : StatsShown (toggleFavorite x st).
Proof.
  unfold StatsShown, toggleFavorite.
  destruct (JsSet.has x (favorites st)); split; reflexivity.
Qed.

Section WithPlatform.
Context {platform : Platform}.

Lemma renderFrame_fields searchTerm st :
  let st' := renderFrame searchTerm st in
  songs st' = songs st
  /\ favorites st' = favorites st
  /\ localStorage st' = localStorage st
  /\ currentFilter st' = currentFilter st
  /\ currentSort st' = currentSort st
  /\ currentPage st' = currentPage st
  /\ searchInput st' = searchInput st
  /\ isRendering st' = false
  /\ StatsShown st'.
Proof.
  unfold renderFrame, StatsShown. destruct (Nat.eqb _ 0).
  - repeat split.
  - destruct (ITEMS_PER_PAGE <? _); repeat split.
Qed.

Lemma renderSongs_fields st :
  let st' := renderSongs st in
  songs st' = songs st
  /\ favorites st' = favorites st
  /\ localStorage st' = localStorage st
  /\ currentFilter st' = currentFilter st
  /\ currentSort st' = currentSort st
  /\ currentPage st' = currentPage st
  /\ searchInput st' = searchInput st.
Proof.
  unfold renderSongs. destruct (isRendering st); [repeat split|].
  unfold renderSongs_request.
  match goal with
  | |- context [renderFrame ?t ?s] =>
      destruct (renderFrame_fields t s)
        as (H1 & H2 & H3 & H4 & H5 & H6 & H7 & _)
  end.
  cbv zeta. rewrite H1, H2, H3, H4, H5, H6, H7.
  destruct (100 <? _); repeat split.
Qed.

(** A render that is not dropped completes: the flag is down again and
    the counts are those of the state. *)
Lemma renderSongs_done st :
  isRendering st = false ->
  isRendering (renderSongs st) = false /\ StatsShown (renderSongs st).
Proof.
  intros H. unfold renderSongs. rewrite H. unfold renderSongs_request.
  match goal with
  | |- context [renderFrame ?t ?s] =>
      destruct (renderFrame_fields t s) as (_ & _ & _ & _ & _ & _ & _ & H8 & H9)
  end.
  split; assumption.
Qed.

Lemma handle_stats e st :
  isRendering st = false /\ StatsShown st ->
  isRendering (handle e st) = false /\ StatsShown (handle e st).
Proof.
  intros [Hr Hs]. destruct e as [v| | |b| |x]; cbn [handle].
  - now apply renderSongs_done.
  - now apply renderSongs_done.
  - now apply renderSongs_done.
  - destruct b; [|now split]. now apply renderSongs_done.
  - destruct (clickLoadMore_fields st) as (H1 & H2 & _ & H4 & H5 & H6).
    unfold StatsShown in *. rewrite H1, H2, H4, H5, H6. now split.
  - split; [|apply toggleFavorite_stats].
    unfold toggleFavorite. now destruct (JsSet.has x (favorites st)).
Qed.

(** X4: once a render has completed, the two counts on display are the
    number of songs in the catalog and the number of favorites, with the
    singular for one, after every sequence of user events: searches,
    filter and sort toggles, clear-all, load more and favorite toggles;
    and no such event leaves the rendering flag up, so no later render
    is dropped. *)
Theorem X4_counts_follow_state :
  forall (st : AppState) (events : list UserEvent),
    isRendering st = false ->
    let st' := runSession events (renderSongs st) in
    isRendering st' = false
    /\ songCount st' = plural (length (songs st')) "song" "songs"
    /\ favoriteCount st'
       = plural (JsSet.size (favorites st')) "favorite" "favorites".
Proof.
  intros st events Hr.
  assert (H : forall events s,
             isRendering s = false /\ StatsShown s ->
             isRendering (runSession events s) = false
             /\ StatsShown (runSession events s)).
  { clear. induction events as [|e r IH]; intros s Hs; [exact Hs|].
    unfold runSession in *. cbn [fold_left]. apply IH.
    now apply handle_stats. }
  destruct (H events (renderSongs st) (renderSongs_done st Hr)) as [H1 [H2 H3]].
  repeat split; assumption.
Qed.

Lemma handle_sync e st : StorageInSync st -> StorageInSync (handle e st).
Proof.
  intros [Hs Hf].
  assert (Hrender : forall s, StorageInSync s -> StorageInSync (renderSongs s)).
  { intros s [H1 H2].
    destruct (renderSongs_fields s) as (E1 & E2 & E3 & _).
    unfold StorageInSync. rewrite E1, E2, E3. now split. }
  destruct e as [v| | |b| |x]; cbn [handle].
  - apply Hrender. now split.
  - apply Hrender. now split.
  - apply Hrender. now split.
  - destruct b; [|now split]. apply Hrender.
    exact (FavoritesFacts.saveToStorage_lookup
             (set_favorites (JsSet.clear (favorites st)) (set_songs [] st))).
  - destruct (clickLoadMore_fields st) as (H1 & H2 & H3 & _).
    unfold StorageInSync. rewrite H1, H2, H3. now split.
  - destruct (FavoritesFacts.toggleFavorite_storage x st) as [H1 H2].
    destruct (FavoritesFacts.toggleFavorite_frame x st) as [H3 _].
    unfold StorageInSync. rewrite H3. now split.
Qed.

(** X5: once the storage holds the serialization of the catalog and of
    the favorites in memory, as it does after any save, it does so after
    every sequence of user events: the events that change the catalog or
    the favorites save again, and the others touch neither the two keys
    nor what they mirror. *)
Theorem X5_storage_follows_state :
  forall (st : AppState) (events : list UserEvent),
    localStorage st !! SONGS = Some (stringify_songs (songs st)) ->
    localStorage st !! FAVORITES
    = Some (Json.stringify_strings (favorites st)) ->
    let st' := runSession events st in
    localStorage st' !! SONGS = Some (stringify_songs (songs st'))
    /\ localStorage st' !! FAVORITES
       = Some (Json.stringify_strings (favorites st')).
Proof.
  intros st events H1 H2.
  assert (H : forall events s,
             StorageInSync s -> StorageInSync (runSession events s)).
  { clear. induction events as [|e r IH]; intros s Hs; [exact Hs|].
    unfold runSession in *. cbn [fold_left]. apply IH.
    now apply handle_sync. }
  apply (H events st). now split.
Qed.




(** *** Searching *)











(** *** Renders compose *)

Lemma renderSongs_ext st st' :
  isRendering st = false ->
  isRendering st' = false ->
  songs st = songs st' ->
  favorites st = favorites st' ->
  currentFilter st = currentFilter st' ->
  currentSort st = currentSort st' ->
  currentPage st = currentPage st' ->
  searchInput st = searchInput st' ->
  localStorage st = localStorage st' ->
  renderSongs st = renderSongs st'.
Proof.
  destruct st, st'. cbn [isRendering songs favorites currentFilter currentSort
    currentPage searchInput localStorage].
  intros -> -> -> -> -> -> -> -> ->.
  unfold renderSongs, renderSongs_request. cbn [isRendering].
  unfold renderFrame, filteredSongs, filterStep, updateStats.
  cbn [songs favorites currentFilter currentSort currentPage searchInput
       localStorage isRendering songList songCount favoriteCount
       set_isRendering set_songList set_stats].
  destruct (100 <? _);
    cbn [songs favorites currentFilter currentSort currentPage searchInput
         localStorage isRendering songList songCount favoriteCount
         set_isRendering set_songList set_stats];
    destruct (Nat.eqb _ 0); reflexivity.
Qed.

(** X9: renders compose.  Rendering twice is rendering once; and two
    clicks on the filter toggle, or two on the sort toggle, leave exactly
    the state of one render on the first page: the filter, or the sort
    key, is back and nothing else differs. *)
Theorem X9_toggles_are_involutions :
  forall st : AppState,
    isRendering st = false ->
    renderSongs (renderSongs st) = renderSongs st
    /\ onShowFavorites (onShowFavorites st)
       = renderSongs (set_currentPage 0 st)
    /\ onSortToggle (onSortToggle st) = renderSongs (set_currentPage 0 st).
Proof.
  intros st Hr. split; [|split].
  - destruct (renderSongs_fields st) as (H1 & H2 & H3 & H4 & H5 & H6 & H7).
    destruct (renderSongs_done st Hr) as [Hd _].
    now apply renderSongs_ext.
  - remember (onShowFavorites st) as s1 eqn:Es1.
    unfold onShowFavorites. unfold onShowFavorites in Es1.
    assert (Hs1 : isRendering s1 = false)
      by (rewrite Es1; apply renderSongs_done; exact Hr).
    match type of Es1 with
    | _ = renderSongs ?inner =>
        destruct (renderSongs_fields inner)
          as (H1 & H2 & H3 & H4 & H5 & H6 & H7)
    end.
    rewrite <- Es1 in H1, H2, H3, H4, H5, H6, H7.
    apply renderSongs_ext; cbn [isRendering songs favorites currentFilter
      currentSort currentPage searchInput localStorage set_currentPage
      set_currentFilter] in *; try assumption; try reflexivity.
    rewrite H4. now destruct (currentFilter st).
  - remember (onSortToggle st) as s1 eqn:Es1.
    unfold onSortToggle. unfold onSortToggle in Es1.
    assert (Hs1 : isRendering s1 = false)
      by (rewrite Es1; apply renderSongs_done; exact Hr).
    match type of Es1 with
    | _ = renderSongs ?inner =>
        destruct (renderSongs_fields inner)
          as (H1 & H2 & H3 & H4 & H5 & H6 & H7)
    end.
    rewrite <- Es1 in H1, H2, H3, H4, H5, H6, H7.
    apply renderSongs_ext; cbn [isRendering songs favorites currentFilter
      currentSort currentPage searchInput localStorage set_currentPage
      set_currentSort] in *; try assumption; try reflexivity.
    rewrite H5. now destruct (currentSort st).
Qed.

(** *** The debounce timer *)

Lemma set_searchInput_twice v w st :
  set_searchInput v (set_searchInput w st) = set_searchInput v st.
Proof. reflexivity. Qed.

Lemma typeBurst_quiet burst t :
  Forall (fun p => snd p < DEBOUNCE_DELAY) burst ->
  exists value : string,
    state (typeBurst burst t) = set_searchInput value (state t).
Proof.
  revert t. induction burst as [|[v gap] r IH]; intros t H.
  - exists (searchInput (state t)). unfold typeBurst. cbn [fold_left].
    now destruct (state t).
  - inversion H as [|? ? Hgap Hr]; subst. cbn [snd] in Hgap.
    unfold typeBurst in *. cbn [fold_left fst snd].
    destruct (IH (elapse gap (keystroke v t)) Hr) as [value Hv].
    exists value. rewrite Hv. unfold elapse, keystroke. cbn [timer state].
    rewrite (proj2 (Nat.leb_gt _ _) Hgap). reflexivity.
Qed.

(** X10: the search is debounced.  While values are typed with less
    than the delay of 300 ms between them nothing is rendered: only the
    content of the box changes; and when the delay has passed after the
    last value, there is one render, on the first page, with that last
    value, and no timer is left. *)
Theorem X10_debounce_one_render :
  forall (t : Timed) (burst : list (string * nat))
         (value : string) (pause : nat),
    Forall (fun p => snd p < DEBOUNCE_DELAY) burst ->
    DEBOUNCE_DELAY <= pause ->
    let t' := elapse pause (keystroke value (typeBurst burst t)) in
    DEBOUNCE_DELAY = 300
    /\ (exists typed : string,
           state (typeBurst burst t) = set_searchInput typed (state t))
    /\ state t' = onSearch (set_searchInput value (state t))
    /\ timer t' = None.
Proof.
  intros t burst value pause Hburst Hpause t'.
  split; [reflexivity|].
  destruct (typeBurst_quiet burst t Hburst) as [typed Ht].
  split; [now exists typed|].
  unfold t', elapse, keystroke. cbn [timer state].
  rewrite (proj2 (Nat.leb_le _ _) Hpause). cbn [state timer].
  rewrite Ht. now split.
Qed.

(** *** Start-up and clear-all *)

(** X11: a start-up whose fetch succeeds saves before it loads the
    favorites, and saving writes the favorites in memory, which are
    still none: whatever favorites the storage held, they are
    overwritten by the empty array, and the session starts with the
    fetched catalog and no favorites. *)
Theorem X11_successful_start_drops_favorites :
  forall (data : CatalogData) (input : string) (ls : gmap string string),
    JSON_parse_strings (Json.stringify_strings []) = Some [] ->
    exists st' : AppState,
      init (FetchResolved true (Some data)) (initialState input ls)
      = Some st'
      /\ songs st' = songsOf data
      /\ favorites st' = []
      /\ localStorage st' !! FAVORITES = Some (Json.stringify_strings [])
      /\ localStorage st' !! SONGS = Some (stringify_songs (songsOf data)).
Proof.
  intros data input ls Hparse.
  set (st1 := saveToStorage (set_songs (songsOf data) (initialState input ls))).
  assert (Hfav : loadFavorites st1 = Some (set_favorites [] st1)).
  { unfold loadFavorites. unfold st1 at 1.
    rewrite (proj2 (FavoritesFacts.saveToStorage_lookup
                      (set_songs (songsOf data) (initialState input ls)))).
    cbn [favorites set_songs initialState].
    change (truthy (Json.stringify_strings [])) with true. cbv iota.
    now rewrite Hparse. }
  exists (renderSongs (set_favorites [] st1)). split.
  - unfold init, loadFromStorage. cbn [loadSongs]. fold st1.
    now rewrite Hfav.
  - destruct (renderSongs_fields (set_favorites [] st1))
      as (H1 & H2 & H3 & _).
    rewrite H1, H2, H3. cbn [songs favorites localStorage set_favorites].
    split; [reflexivity|]. split; [reflexivity|].
    destruct (FavoritesFacts.saveToStorage_lookup
                (set_songs (songsOf data) (initialState input ls)))
      as [Hs Hf].
    split; [exact Hf|exact Hs].
Qed.


(** X13: a confirmed clear-all, when no render is in flight, empties the
    catalog and the favorites, stores the two empty arrays, shows the
    state for no songs loaded, not the one for no match, and the counts
    read 0 songs and 0 favorites; a cancelled one changes nothing. *)
Theorem X13_clear_all :
  forall st : AppState,
    isRendering st = false ->
    let st' := onClearAll true st in
    songs st' = []
    /\ favorites st' = []
    /\ songList st' = [EmptyState NoSongsLoaded]
    /\ songCount st' = "0 songs"%string
    /\ favoriteCount st' = "0 favorites"%string
    /\ isRendering st' = false
    /\ onClearAll false st = st.
Proof.
  intros st Hr st'. unfold st', onClearAll.
  set (s := saveToStorage _).
  assert (Hsr : isRendering s = false) by exact Hr.
  destruct (renderSongs_fields s) as (H1 & H2 & _).
  destruct (renderSongs_done s Hsr) as [Hd [Hc Hf]].
  rewrite H1, H2, Hc, Hf, H1, H2.
  split; [reflexivity|]. split; [reflexivity|].
  split; [now apply StartupFacts.renderSongs_empty_catalog|].
  repeat split; [exact Hd].
Qed.

(** *** The marks of the favorite buttons *)

















(** *** The theme and the rest of the storage *)

Lemma handle_theme_key e st :
  localStorage (handle e st) !! THEME = localStorage st !! THEME.
Proof.
  assert (Hrender : forall s,
             localStorage (renderSongs s) !! THEME = localStorage s !! THEME).
  { intros s. destruct (renderSongs_fields s) as (_ & _ & E & _).
    now rewrite E. }
  destruct e as [v| | |b| |x]; cbn [handle];
    try (unfold onSearch, onShowFavorites, onSortToggle; rewrite Hrender;
         reflexivity).
  - destruct b; [|reflexivity]. unfold onClearAll. rewrite Hrender.
    now rewrite (FavoritesFacts.saveToStorage_other
                   (set_favorites (JsSet.clear (favorites st))
                      (set_songs [] st)) THEME) by discriminate.
  - destruct (clickLoadMore_fields st) as (_ & _ & E & _). now rewrite E.
  - unfold toggleFavorite.
    destruct (JsSet.has x (favorites st));
      cbn [localStorage set_songList updateStats set_stats];
      match goal with
      | |- localStorage (saveToStorage ?s) !! _ = _ =>
          rewrite (FavoritesFacts.saveToStorage_other s THEME)
            by discriminate
      end; reflexivity.
Qed.

(** X15: the theme and the data do not touch each other.  A theme toggle
    writes the theme key only and leaves the catalog, the favorites and
    the list alone; and no sequence of user events changes the stored
    theme, not even a confirmed clear-all. *)
Theorem X15_theme_and_data_are_separate :
  (forall p : Theme.Page,
      let p' := Theme.toggleTheme p in
      set_localStorage (localStorage (Theme.app p)) (Theme.app p')
      = Theme.app p
      /\ (forall key : string,
             key <> THEME ->
             localStorage (Theme.app p') !! key
             = localStorage (Theme.app p) !! key))
  /\ (forall (events : list UserEvent) (st : AppState),
         localStorage (runSession events st) !! THEME
         = localStorage st !! THEME).
Proof.
  split.
  - intros p p'. unfold p', Theme.toggleTheme.
    cbn [Theme.app Theme.updateThemeIcon Theme.setTheme localStorage
         set_localStorage].
    split; [now destruct (Theme.app p)|].
    intros key Hkey. now rewrite lookup_insert_ne by congruence.
  - induction events as [|e r IH]; intros st; [reflexivity|].
    unfold runSession in *. cbn [fold_left].
    rewrite IH. apply handle_theme_key.
Qed.

End WithPlatform.

End SessionFacts.

(** ** More on the service worker *)

Module WorkerFacts.
Import JsString ServiceWorker ServiceWorkerFacts Worker.

(** *** Buckets *)


Lemma Cache_put_In u r u' r' c :
  In (u, r) (Cache_put u' r' c) -> In (u, r) c \/ (u, r) = (u', r').
Proof.
  unfold Cache_put. rewrite in_app_iff, filter_In. simpl.
  intros [[H _]|[H|[]]]; auto.
Qed.

Lemma Caches_update_In name c' n f cs :
  In (name, c') (Caches_update n f cs) ->
  exists c, In (name, c) cs /\ (c' = c \/ (name = n /\ c' = f c)).
Proof.
  unfold Caches_update. rewrite in_map_iff. intros ([k c] & H & Hin).
  cbn [fst snd] in H. destruct (String.eqb_spec k n) as [->|Hk];
    injection H as <- <-; eauto.
Qed.

Lemma Caches_update_named n f c cs :
  In (n, c) cs -> In (n, f c) (Caches_update n f cs).
Proof.
  intros H. unfold Caches_update. apply in_map_iff. exists (n, c).
  cbn [fst snd]. now rewrite String.eqb_refl.
Qed.

Lemma Caches_open_In name c n cs :
  In (name, c) (Caches_open n cs) -> In (name, c) cs \/ c = [].
Proof.
  unfold Caches_open. destruct (Caches_has n cs); [auto|].
  rewrite in_app_iff. simpl. intros [H|[H|[]]]; [auto|].
  injection H as _ <-. auto.
Qed.



(** *** What the fetch listener leaves pending *)

Lemma onFetch_pending net cs request r pending :
  onFetch net cs request = RespondWith r pending ->
  pending = []
  \/ (pending = [TaskPut CACHE_NAME (url request) r]
      /\ Caches_match (url request) cs = None
      /\ net request = Some r
      /\ status r = 200
      /\ isErrorType (type r) = false).
Proof.
  unfold onFetch.
  destruct (startsWith _ _); [discriminate|].
  destruct (negb _); [discriminate|].
  destruct (Caches_match (url request) cs) eqn:Hm.
  - intros H. injection H as _ <-. now left.
  - destruct (net request) as [fr|] eqn:Hn.
    + destruct (negb (Nat.eqb (status fr) 200)) eqn:Hs; cbn [orb].
      * intros H. injection H as _ <-. now left.
      * destruct (isErrorType (type fr)) eqn:He.
        -- intros H. injection H as _ <-. now left.
        -- intros H. injection H as <- <-. right.
           apply negb_false_iff, Nat.eqb_eq in Hs. now repeat split.
    + intros H. injection H as _ <-. now left.
Qed.





(** *** Only complete responses are stored *)

Lemma runTask_CachedOk t cs :
  ok (taskResponse t) = true -> CachedOk cs -> CachedOk (runTask t cs).
Proof.
  destruct t as [n u' r']. cbn [taskResponse]. intros Hr Hcs name c u r Hc Hin.
  unfold runTask in Hc.
  apply Caches_update_In in Hc as (c0 & Hc0 & Hc).
  apply Caches_open_In in Hc0 as [Hc0| ->].
  - destruct Hc as [->|[_ ->]]; [now apply (Hcs name c0 u r)|].
    apply Cache_put_In in Hin as [Hin|Hin].
    + now apply (Hcs name c0 u r).
    + now injection Hin as -> ->.
  - destruct Hc as [->|[_ ->]]; [destruct Hin|].
    apply Cache_put_In in Hin as [[]|Hin]. now injection Hin as -> ->.
Qed.

Lemma status_200_ok r : status r = 200 -> ok r = true.
Proof. intros H. unfold ok. now rewrite H. Qed.

Lemma step_CachedOk e w :
  CachedOk (caches w)
  /\ Forall (fun t => ok (taskResponse t) = true) (pendingTasks w) ->
  CachedOk (caches (step e w))
  /\ Forall (fun t => ok (taskResponse t) = true) (pendingTasks (step e w)).
Proof.
  intros [Hc Hp]. destruct e as [net request|]; cbn [step].
  - destruct (onFetch net (caches w) request) as [|r0 pending] eqn:Hf;
      [now split|].
    cbn [caches pendingTasks]. split; [exact Hc|].
    apply Forall_app. split; [exact Hp|].
    destruct (onFetch_pending _ _ _ _ _ Hf) as [->|(-> & _ & _ & Hs & _)];
      [constructor|].
    constructor; [|constructor]. cbn [taskResponse]. now apply status_200_ok.
  - destruct (pendingTasks w) as [|t rest] eqn:Hq;
      [split; [exact Hc|rewrite Hq; constructor]|].
    cbn [caches pendingTasks]. inversion Hp as [|? ? Ht Hrest]; subst.
    split; [now apply runTask_CachedOk|exact Hrest].
Qed.

Lemma fetchAll_ok net urls entries :
  fetchAll net urls = Some entries ->
  map fst entries = urls
  /\ forall u r, In (u, r) entries -> net (GET u) = Some r /\ ok r = true.
Proof.
  revert entries. induction urls as [|u rest IH]; intros entries H.
  - injection H as <-. split; [reflexivity|intros ? ? []].
  - cbn [fetchAll] in H. destruct (net (GET u)) as [r|] eqn:Hn; [|discriminate].
    destruct (ok r) eqn:Hok; [|discriminate].
    destruct (fetchAll net rest) as [l|]; [|discriminate].
    injection H as <-. destruct (IH l eq_refl) as [H1 H2]. split.
    + cbn [map fst]. now rewrite H1.
    + intros u' r' [E|Hin]; [injection E as <- <-; now split|now apply H2].
Qed.

Lemma putAll_In entries c u r :
  In (u, r) (fold_left (fun c e => Cache_put (fst e) (snd e) c) entries c) ->
  In (u, r) c \/ In (u, r) entries.
Proof.
  revert c. induction entries as [|[u' r'] rest IH]; intros c H; [now left|].
  cbn [fold_left fst snd] in H. apply IH in H as [H|H]; [|right; now right].
  apply Cache_put_In in H as [H|H]; [now left|]. right. left. now symmetry.
Qed.

Lemma install_CachedOk b net cs :
  CachedOk cs -> CachedOk (fst (install b net cs)).
Proof.
  intros Hcs. unfold install. destruct b; [|exact Hcs].
  assert (Hopen : CachedOk (Caches_open CACHE_NAME cs)).
  { intros name c u r Hc Hin. apply Caches_open_In in Hc as [Hc| ->];
      [now apply (Hcs name c u r)|destruct Hin]. }
  destruct (fetchAll net ASSETS) as [entries|] eqn:Hf; cbn [fst];
    [|exact Hopen].
  destruct (fetchAll_ok _ _ _ Hf) as [_ Hent].
  intros name c u r Hc Hin.
  apply Caches_update_In in Hc as (c0 & Hc0 & [->|[_ ->]]).
  - now apply (Hopen name c0 u r).
  - apply putAll_In in Hin as [Hin|Hin].
    + now apply (Hopen name c0 u r).
    + now apply (Hent u r).
Qed.

Lemma Caches_delete_In e name cs :
  In e (Caches_delete name cs) -> In e cs.
Proof. unfold Caches_delete. rewrite filter_In. tauto. Qed.

Lemma activate_In e cs : In e (activate cs) -> In e cs.
Proof.
  unfold activate. generalize (Caches_keys cs) as names. intros names.
  revert cs. induction names as [|n rest IH]; intros cs H; [exact H|].
  cbn [fold_left] in H. apply IH in H.
  destruct (negb _); [now apply Caches_delete_In in H|exact H].
Qed.

(** X18: only complete responses get into the cache.  When every
    response in every bucket is an ok response (status 200 to 299), this
    is still so after an install, whether it succeeds or fails, after an
    activation, and after any sequence of fetch events and pending cache
    writes; in particular the made-up 503 response of the listener, and
    any error answer of the network, is handed to the page but never
    stored. *)
Theorem X18_only_ok_responses_are_cached :
  forall (cs : CacheStorage) (storageOk : bool) (net : Network)
         (events : list WorkerEvent),
    CachedOk cs ->
    let installed := activate (fst (install storageOk net cs)) in
    let w := run events {| caches := installed; pendingTasks := [] |} in
    forall (name : string) (c : Cache) (u : string) (r : Response),
      In (name, c) (caches w) ->
      In (u, r) c ->
      ok r = true /\ r <> offlineResponse.
Proof.
  intros cs storageOk net events Hcs installed w.
  assert (Hinst : CachedOk installed).
  { intros name c u r Hc. apply activate_In in Hc.
    now apply (install_CachedOk storageOk net cs Hcs name c u r). }
  assert (H : forall events w0,
             CachedOk (caches w0)
             /\ Forall (fun t => ok (taskResponse t) = true) (pendingTasks w0) ->
             CachedOk (caches (run events w0))).
  { clear. induction events as [|e rest IH]; intros w0 Hw; [apply Hw|].
    unfold run in *. cbn [fold_left]. apply IH. now apply step_CachedOk. }
  assert (Hw : CachedOk (caches w)).
  { apply H. split; [exact Hinst|constructor]. }
  intros name c u r Hc Hin. pose proof (Hw name c u r Hc Hin) as Hok.
  split; [exact Hok|]. intros ->. discriminate Hok.
Qed.

(** *** Install *)


Lemma fetchAll_None net urls u :
  In u urls ->
  net (GET u) = None \/ (exists r, net (GET u) = Some r /\ ok r = false) ->
  fetchAll net urls = None.
Proof.
  intros Hin Hbad. destruct (fetchAll net urls) as [entries|] eqn:Hf;
    [|reflexivity].
  destruct (fetchAll_ok _ _ _ Hf) as [Hkeys Hent].
  rewrite <- Hkeys in Hin. apply in_map_iff in Hin as ([u' r'] & E & Hin).
  cbn [fst] in E. subst u'. destruct (Hent u r' Hin) as [Hn Hok].
  destruct Hbad as [Hbad|(r & Hr & Hbad)]; congruence.
Qed.




Lemma Caches_get_app name cs more :
  Caches_get name (cs ++ more)
  = match Caches_get name cs with
    | Some c => Some c
    | None => Caches_get name more
    end.
Proof.
  induction cs as [|[k c] rest IH]; [reflexivity|].
  cbn [app Caches_get]. now destruct (String.eqb k name).
Qed.

Lemma Caches_get_open_other name n cs :
  name <> n -> Caches_get name (Caches_open n cs) = Caches_get name cs.
Proof.
  intros Hne. unfold Caches_open. destruct (Caches_has n cs); [reflexivity|].
  rewrite Caches_get_app. cbn [Caches_get].
  rewrite (proj2 (String.eqb_neq _ _) (not_eq_sym Hne)).
  now destruct (Caches_get name cs).
Qed.



(** X20: a failed install stores nothing.  When the fetch of one listed
    asset rejects, or resolves with a status outside 200 to 299, no
    response is stored, not even those of the assets that were fetched,
    and [skipWaiting] is not called: the storage is the old one with the
    bucket of the current name opened, so every lookup gives what it
    gave before. *)
Theorem X20_install_is_all_or_nothing :
  forall (net : Network) (cs : CacheStorage) (u : string),
    In u ASSETS ->
    net (GET u) = None
    \/ (exists r, net (GET u) = Some r /\ ok r = false) ->
    install true net cs = (Caches_open CACHE_NAME cs, false)
    /\ (forall v, Caches_match v (fst (install true net cs))
                  = Caches_match v cs)
    /\ (forall name, name <> CACHE_NAME ->
          Caches_get name (fst (install true net cs)) = Caches_get name cs).
Proof.
  intros net cs u Hin Hbad.
  assert (E : install true net cs = (Caches_open CACHE_NAME cs, false)).
  { unfold install. now rewrite (fetchAll_None net ASSETS u Hin Hbad). }
  rewrite E. cbn [fst]. split; [reflexivity|]. split.
  - intros v. apply Caches_match_open.
  - intros name Hne. now apply Caches_get_open_other.
Qed.

(** *** Activate *)

Lemma filter_filter_and {A} (f g : A -> bool) (l : list A) :
  List.filter f (List.filter g l) = List.filter (fun x => g x && f x) l.
Proof.
  induction l as [|x l IH]; [reflexivity|].
  cbn [List.filter]. destruct (g x); cbn [andb List.filter]; rewrite IH;
    reflexivity.
Qed.

Lemma filter_true {A} (f : A -> bool) (l : list A) :
  (forall x, In x l -> f x = true) -> List.filter f l = l.
Proof.
  induction l as [|x l IH]; intros H; [reflexivity|].
  cbn [List.filter]. rewrite (H x (or_introl eq_refl)), IH; [reflexivity|].
  intros y Hy. apply H. now right.
Qed.

Lemma activate_fold names cs :
  fold_left
    (fun acc cache =>
       if negb (String.eqb cache CACHE_NAME)
       then Caches_delete cache acc else acc)
    names cs
  = List.filter
      (fun e => String.eqb (fst e) CACHE_NAME
                || negb (existsb (String.eqb (fst e)) names))
      cs.
Proof.
  revert cs. induction names as [|n rest IH]; intros cs.
  - cbn [fold_left existsb negb]. symmetry. apply filter_true.
    intros x _. apply orb_true_r.
  - cbn [fold_left]. rewrite IH. destruct (String.eqb_spec n CACHE_NAME)
      as [->|Hn]; cbn [negb].
    + apply List.filter_ext. intros [k c]. cbn [fst existsb].
      now destruct (String.eqb k CACHE_NAME).
    + unfold Caches_delete. rewrite filter_filter_and.
      apply List.filter_ext. intros [k c]. cbn [fst existsb].
      destruct (String.eqb_spec k n) as [->|Hk]; cbn [negb andb orb];
        [|reflexivity].
      now rewrite (proj2 (String.eqb_neq _ _) Hn).
Qed.

Lemma activate_filter cs :
  activate cs = List.filter (fun e => String.eqb (fst e) CACHE_NAME) cs.
Proof.
  unfold activate. rewrite activate_fold. apply List.filter_ext_in.
  intros [k c] Hin. cbn [fst].
  assert (E : existsb (String.eqb k) (Caches_keys cs) = true).
  { apply existsb_exists. exists k. split; [|apply String.eqb_refl].
    unfold Caches_keys. apply in_map_iff. now exists (k, c). }
  rewrite E. cbn [negb]. apply orb_false_r.
Qed.

(** X21: activation keeps the buckets of the current name and nothing
    else.  The loop of deletions over [caches.keys] leaves exactly the
    entries of the storage whose name is the current one, in their order
    and with their contents; so a second activation changes nothing, and
    a response is found afterwards only if a bucket of the current name
    holds it. *)
Theorem X21_activate_keeps_current_bucket :
  forall cs : CacheStorage,
    activate cs = List.filter (fun e => String.eqb (fst e) CACHE_NAME) cs
    /\ activate (activate cs) = activate cs
    /\ Caches_get CACHE_NAME (activate cs) = Caches_get CACHE_NAME cs
    /\ (forall u r,
          Caches_match u (activate cs) = Some r ->
          exists c, In (CACHE_NAME, c) cs /\ Cache_match u c = Some r).
Proof.
  intros cs. split; [apply activate_filter|]. split; [|split].
  - rewrite !activate_filter, filter_filter_and. apply List.filter_ext.
    intros e. now destruct (String.eqb (fst e) CACHE_NAME).
  - apply activate_get.
  - intros u r. rewrite activate_filter.
    induction cs as [|[k c] rest IH]; [discriminate|].
    cbn [List.filter fst]. destruct (String.eqb_spec k CACHE_NAME) as [->|Hk].
    + cbn [Caches_match]. destruct (Cache_match u c) eqn:Hc.
      * intros H. injection H as ->. exists c. split; [now left|exact Hc].
      * intros H. destruct (IH H) as (c' & Hin & Hm). exists c'.
        split; [now right|exact Hm].
    + intros H. destruct (IH H) as (c' & Hin & Hm). exists c'.
      split; [now right|exact Hm].
Qed.




End WorkerFacts.

(** ** The further theorems at the sample data *)

Module SessionWitnesses.
Import JsString ArraySort App View Session Scenario.

Local Abbreviation P := Reference.platform.

Lemma X4_witness :
  isRendering Sample.session = false
  /\ let st' := runSession (platform := P) visit
                  (renderSongs (platform := P) Sample.session) in
     isRendering st' = false
     /\ songCount st' = plural (length (songs st')) "song" "songs"
     /\ favoriteCount st'
        = plural (JsSet.size (favorites st')) "favorite" "favorites".
Proof.
  split; [reflexivity|].
  exact (SessionFacts.X4_counts_follow_state (platform := P)
           Sample.session visit eq_refl).
Defined.

Lemma X5_witness :
  let st := Sample.session in
  localStorage st !! SONGS = Some (stringify_songs (songs st))
  /\ localStorage st !! FAVORITES
     = Some (Json.stringify_strings (favorites st))
  /\ let st' := runSession (platform := P) visit st in
     localStorage st' !! SONGS = Some (stringify_songs (songs st'))
     /\ localStorage st' !! FAVORITES
        = Some (Json.stringify_strings (favorites st')).
Proof.
  cbv zeta.
  pose proof (FavoritesFacts.saveToStorage_lookup
                (set_favorites ["12"; "7"]%string
                   (set_songs Sample.catalog (initialState EmptyString ∅))))
    as [H1 H2].
  split; [exact H1|]. split; [exact H2|].
  exact (SessionFacts.X5_storage_follows_state (platform := P)
           Sample.session visit H1 H2).
Defined.



Lemma X9_witness :
  let st := Sample.session in
  isRendering st = false
  /\ renderSongs (platform := P) (renderSongs (platform := P) st)
     = renderSongs (platform := P) st
  /\ onShowFavorites (platform := P) (onShowFavorites (platform := P) st)
     = renderSongs (platform := P) (set_currentPage 0 st).
Proof.
  cbv zeta. split; [reflexivity|].
  destruct (SessionFacts.X9_toggles_are_involutions (platform := P)
              Sample.session eq_refl) as (H1 & H2 & _).
  split; [exact H1|exact H2].
Defined.

Lemma X10_witness :
  let t := {| state := Sample.session; timer := None |} in
  let burst := [("g"%string, 100); ("gr"%string, 120)] in
  Forall (fun p => snd p < DEBOUNCE_DELAY) burst
  /\ DEBOUNCE_DELAY <= 300
  /\ let t' := elapse (platform := P) 300
                 (keystroke "grace" (typeBurst (platform := P) burst t)) in
     state t' = onSearch (platform := P)
                  (set_searchInput "grace" Sample.session)
     /\ timer t' = None.
Proof.
  cbv zeta.
  assert (H1 : Forall (fun p : string * nat => snd p < DEBOUNCE_DELAY)
                 [("g"%string, 100); ("gr"%string, 120)]).
  { unfold DEBOUNCE_DELAY. constructor; [cbn [snd]; lia|].
    constructor; [cbn [snd]; lia|]. constructor. }
  assert (H2 : DEBOUNCE_DELAY <= 300) by (unfold DEBOUNCE_DELAY; lia).
  split; [exact H1|]. split; [exact H2|].
  destruct (SessionFacts.X10_debounce_one_render (platform := P)
              {| state := Sample.session; timer := None |}
              [("g"%string, 100); ("gr"%string, 120)] "grace" 300 H1 H2)
    as (_ & _ & H3 & H4).
  split; [exact H3|exact H4].
Defined.

Lemma X11_witness :
  JSON_parse_strings (Platform := P) (Json.stringify_strings []) = Some []
  /\ exists st' : AppState,
       init (platform := P) (FetchResolved true (Some (DataSongs Sample.catalog)))
         (initialState EmptyString (localStorage Sample.session)) = Some st'
       /\ songs st' = Sample.catalog
       /\ favorites st' = []
       /\ localStorage st' !! FAVORITES = Some (Json.stringify_strings []).
Proof.
  split; [reflexivity|].
  destruct (SessionFacts.X11_successful_start_drops_favorites (platform := P)
              (DataSongs Sample.catalog) EmptyString
              (localStorage Sample.session) eq_refl)
    as (st' & H1 & H2 & H3 & H4 & _).
  exists st'. split; [exact H1|]. split; [exact H2|].
  split; [exact H3|exact H4].
Defined.


Lemma X13_witness :
  isRendering Sample.session = false
  /\ let st' := onClearAll (platform := P) true Sample.session in
     songs st' = []
     /\ favorites st' = []
     /\ songList st' = [EmptyState NoSongsLoaded]
     /\ songCount st' = "0 songs"%string
     /\ favoriteCount st' = "0 favorites"%string
     /\ isRendering st' = false
     /\ onClearAll (platform := P) false Sample.session = Sample.session.
Proof.
  split; [reflexivity|].
  exact (SessionFacts.X13_clear_all (platform := P) Sample.session eq_refl).
Defined.


End SessionWitnesses.

Module WorkerWitnesses.
Import JsString ServiceWorker Worker Scenario.


Lemma staleStorage_CachedOk : CachedOk Sample.staleStorage.
Proof.
  intros name c u r [H|[]] Hin. injection H as _ <-.
  destruct Hin as [H|[]]. injection H as _ <-. reflexivity.
Defined.



Lemma X18_witness :
  CachedOk Sample.staleStorage
  /\ let installed :=
       activate (fst (install true Sample.online Sample.staleStorage)) in
     let w := run traffic {| caches := installed; pendingTasks := [] |} in
     forall (name : string) (c : Cache) (u : string) (r : Response),
       In (name, c) (caches w) ->
       In (u, r) c ->
       ok r = true /\ r <> offlineResponse.
Proof.
  split; [exact staleStorage_CachedOk|].
  exact (WorkerFacts.X18_only_ok_responses_are_cached Sample.staleStorage
           true Sample.online traffic staleStorage_CachedOk).
Defined.


Lemma X20_witness :
  In "/song-book/app.js"%string ASSETS
  /\ Sample.offline (GET "/song-book/app.js") = None
  /\ install true Sample.offline Sample.staleStorage
     = (Caches_open CACHE_NAME Sample.staleStorage, false).
Proof.
  assert (H : In "/song-book/app.js"%string ASSETS).
  { right. right. right. left. reflexivity. }
  split; [exact H|]. split; [reflexivity|].
  exact (proj1 (WorkerFacts.X20_install_is_all_or_nothing Sample.offline
                  Sample.staleStorage "/song-book/app.js" H
                  (or_introl eq_refl))).
Defined.


End WorkerWitnesses.
